(** * whatsfordinner: the per-chat workflow orchestrator

    A shallow embedding of [cmd/bot/main.go] (the command, callback and
    default handlers) and of the dispatch loop of [pkg/telegram] ([Bot.Start]
    and the transport wrappers), with the properties of the specification
    stated over the sequence of calls the handlers make to their
    collaborators.

    The handlers are straight-line Go code that talks to the Telegram API,
    the OpenAI client, the fridge / suggestion / poll services, the state
    manager and the logger.  Each such call is a constructor of [Call]; a
    handler is a finite tree of calls ([Prog]); [run] executes a handler
    against an arbitrary environment that answers the calls, and records the
    calls with their answers.  An environment is any state type [W] with a
    function answering each call in a state; failures of the store, the
    transport and the Advisor are answers like any other.

    Of [pkg/telegram], the wrappers that [main] never calls
    ([SendMessageWithKeyboard], [EditMessageKeyboard], [GetChatMemberCount],
    [GetChatMember], [StopPoll]) and the constructor [New] are left out; of
    [main], the bootstrap before the handler tables and the signal
    handling. *)

From stdpp Require Import base option list strings gmap fin_maps pretty sorting.
From Stdlib Require Import ZArith Lia Ascii.

Local Open Scope string_scope.
Local Open Scope Z_scope.

(** ** Go values *)

(** A Go [error]: [None] is [nil], [Some msg] an error with that text. *)
Definition error : Type := option string.

Definition is_err (e : error) : bool :=
  match e with Some _ => true | None => false end.

(** [err.Error()], as [%v] prints it. *)
Definition err_text (e : error) : string := default "<nil>" e.

(** An [interface{}] value as the handlers inspect it: they only ever assert
    [.(string)] and [.([]interface{})]. *)
#[warnings="-register-all"]
Inductive value : Type :=
| VStr (s : string)
| VList (l : list value)
| VOther.

(** [map[string]interface{}] *)
Definition dict : Type := gmap string value.

(** [s, _ := d[k].(string)]: the zero value when the key is absent or holds
    something else. *)
Definition get_string (d : dict) (k : string) : string :=
  match d !! k with
  | Some (VStr s) => s
  | _ => ""
  end.

(** [l, ok := d[k].([]interface{})] *)
Definition get_list (d : dict) (k : string) : option (list value) :=
  match d !! k with
  | Some (VList l) => Some l
  | _ => None
  end.

(** ** Telegram types (tgbotapi), reduced to the fields the code reads *)

Record User := mkUser {
  user_ID : Z;
  UserName : string;
  FirstName : string
}.

Record PhotoSize := mkPhotoSize { FileID : string }.

(** [IsCommand], [Command] and [CommandArguments] are methods of the library's
    [Message], computed from the text and its entities; they are carried here
    as fields.  [Chat] and [From] are dereferenced by the handlers without a
    nil check, so a message here always has them. *)
Record Message := mkMessage {
  MessageID : Z;
  From : User;
  ChatID : Z;
  Text : string;
  Photo : list PhotoSize;
  IsCommand : bool;
  Command : string;
  CommandArguments : string
}.

(** The handlers dereference [callback.Message] without a nil check, so a
    callback query here always has its originating message. *)
Record CallbackQuery := mkCallbackQuery {
  cb_ID : string;
  cb_From : User;
  cb_Message : Message;
  Data : string
}.

Record Update := mkUpdate {
  upd_Message : option Message;
  upd_CallbackQuery : option CallbackQuery
}.

Record InlineKeyboardButton := mkButton {
  btn_Text : string;
  btn_CallbackData : string
}.

Definition InlineKeyboardMarkup : Type := list (list InlineKeyboardButton).

Record File := mkFile { FilePath : string }.

(** What can be handed to [BotAPI.Send] / [BotAPI.Request]. *)
Inductive Chattable : Type :=
| MessageConfig (chat : Z) (text : string) (markup : option InlineKeyboardMarkup)
| EditMessageTextConfig (chat : Z) (message_id : Z) (text : string)
    (markup : option InlineKeyboardMarkup)
| SendPollConfig (chat : Z) (question : string) (options : list string)
    (is_anonymous : bool)
| CallbackConfig (callback_id : string) (text : string).

Definition NewMessage (chat : Z) (text : string) : Chattable :=
  MessageConfig chat text None.

Definition NewEditMessageText (chat : Z) (message_id : Z) (text : string) : Chattable :=
  EditMessageTextConfig chat message_id text None.

(** [tgbotapi.NewPoll] creates an anonymous poll. *)
Definition NewPoll (chat : Z) (question : string) (options : list string) : Chattable :=
  SendPollConfig chat question options true.

Definition NewCallback (id text : string) : Chattable := CallbackConfig id text.

(** [poll.IsAnonymous = b] *)
Definition set_IsAnonymous (b : bool) (c : Chattable) : Chattable :=
  match c with
  | SendPollConfig chat question options _ => SendPollConfig chat question options b
  | other => other
  end.

(** [File.Link]: [fmt.Sprintf(FileEndpoint, token, f.FilePath)]. *)
Definition Link (f : File) (token : string) : string :=
  "https://api.telegram.org/file/bot" +:+ token +:+ "/" +:+ FilePath f.

(** ** Repository types declared outside the embedded files *)

(** Modelled from the spec: [models.Ingredient] (pkg/models is not part of the
    embedded sources); a name and an optional free-text quantity. *)
Record Ingredient := mkIngredient {
  Name : string;
  Quantity : string
}.

(** Modelled from the spec: [models.SuggestedDish] (pkg/models); the fields
    the handlers read, plus the chat, proposer and "used" flag of the data
    model. *)
Record SuggestedDish := mkSuggestedDish {
  sd_ID : string;
  sd_ChatID : Z;
  sd_UserID : string;
  sd_Username : string;
  sd_Name : string;
  sd_Cuisine : string;
  sd_Description : string;
  sd_Used : bool
}.

(** Modelled from the spec: the conversational modes of [pkg/state].  The
    zero state is the idle one. *)
Inductive State : Type :=
| StateNone
| StateAddingIngredients
| StateAddingPhotos
| StateSuggestingDish.

#[global] Instance State_eq_dec : EqDecision State.
Proof. solve_decision. Defined.

(** [config.Config]: the fields read by the embedded code. *)
Record Config := mkConfig {
  BotToken : string;
  Cuisines : list string
}.

(** ** Calls to collaborators *)

Inductive Call : Type :=
(* tgbotapi.BotAPI *)
| ApiSend (c : Chattable)
| ApiRequest (c : Chattable)
| ApiGetFile (file_id : string)
(* fridge.Service *)
| ListIngredients (chat : Z)
| ResetFridge (chat : Z)
| AddIngredient (chat : Z) (name quantity : string)
(* suggest.Service *)
| GetUnusedSuggestions (chat : Z)
| MarkAsUsed (id : string)
| AddSuggestion (chat : Z) (user_id username name cuisine description : string)
(* poll.Service *)
| CreateVote (chat : Z) (poll_id : string) (message_id : Z) (options : list string)
(* openai.Client *)
| SuggestDinnerOptions (ingredients cuisines : list string) (count : Z)
| ExtractIngredientsFromPhoto (url : string)
| ParseIngredientsFromText (text : string)
| GetDishInfo (name : string)
(* messages.Service *)
| GenerateWelcomeMessage
| GenerateErrorMessage (operation : string)
(* state.Manager *)
| GetState (chat : Z)
| SetState (chat : Z) (st : State)
| ClearState (chat : Z)
(* logger.Logger: the bot's own logger carries a prefix, main's is global *)
| LogInfo (prefix text : string)
| LogError (text : string).

(** The Go result of each call.  A [(T, error)] result is a pair: the code
    decides on [err != nil] and, where it ignores the error, still reads the
    value. *)
Definition reply (c : Call) : Type :=
  match c with
  | ApiSend _ => Message * error
  | ApiRequest _ => error
  | ApiGetFile _ => File * error
  | ListIngredients _ => list Ingredient * error
  | ResetFridge _ => error
  | AddIngredient _ _ _ => error
  | GetUnusedSuggestions _ => list SuggestedDish * error
  | MarkAsUsed _ => error
  | AddSuggestion _ _ _ _ _ _ => SuggestedDish * error
  | CreateVote _ _ _ _ => error
  | SuggestDinnerOptions _ _ _ => list dict * error
  | ExtractIngredientsFromPhoto _ => list string * error
  | ParseIngredientsFromText _ => list string * error
  | GetDishInfo _ => dict * error
  | GenerateWelcomeMessage => string
  | GenerateErrorMessage _ => string
  | GetState _ => State
  | SetState _ _ => unit
  | ClearState _ => unit
  | LogInfo _ _ => unit
  | LogError _ => unit
  end.

(** A handler: a finite tree of calls, branching on the answers. *)
Inductive Prog (A : Type) : Type :=
| Ret (a : A)
| Do (c : Call) (k : reply c → Prog A).
Arguments Ret {A} a.
Arguments Do {A} c k.

Fixpoint prog_bind {A B : Type} (f : A → Prog B) (p : Prog A) : Prog B :=
  match p with
  | Ret a => f a
  | Do c k => Do c (λ r, prog_bind f (k r))
  end.

#[global] Instance Prog_ret : MRet Prog := @Ret.
#[global] Instance Prog_bind : MBind Prog := @prog_bind.

Definition call (c : Call) : Prog (reply c) := Do c Ret.

Definition skip : Prog unit := Ret tt.

(** [if cond { body }] for a body without a value. *)
Definition when (b : bool) (p : Prog unit) : Prog unit :=
  if b then p else skip.

(** An observed call with its answer. *)
Definition Event : Type := sigT reply.

Definition ev_call (e : Event) : Call := projT1 e.

Section Run.
Context {W : Type}.
Variable answer : ∀ c : Call, W → reply c * W.

(** Runs a handler in an environment with state [W]: the result, the final
    environment and the calls made, oldest first. *)
Fixpoint run {A : Type} (p : Prog A) (w : W) : A * W * list Event :=
  match p with
  | Ret a => (a, w, [])
  | Do c k =>
      let r := answer c w in
      let s := run (k r.1) r.2 in
      (s.1.1, s.1.2, existT c r.1 :: s.2)
  end.

Definition trace {A : Type} (p : Prog A) (w : W) : list Event := (run p w).2.

Definition calls {A : Type} (p : Prog A) (w : W) : list Call :=
  ev_call <$> trace p w.

Definition final {A : Type} (p : Prog A) (w : W) : W := (run p w).1.2.

Definition result {A : Type} (p : Prog A) (w : W) : A := (run p w).1.1.

End Run.

(** ** Text helpers *)

(** The newline of the Go string literals. *)
Definition NL : string := String "010"%char EmptyString.

(** [strings.Join] *)
Fixpoint Join (elems : list string) (sep : string) : string :=
  match elems with
  | [] => ""
  | [x] => x
  | x :: rest => x +:+ sep +:+ Join rest sep
  end.

(** [len(s)] of a Go collection, an [int]. *)
Definition len {A : Type} (l : list A) : Z := Z.of_nat (length l).

(** [%d] *)
Definition fmt_d (n : Z) : string := pretty n.

(** [len(data) >= len(prefix) && data[:len(prefix)] == prefix] *)
Definition has_prefix (data prefix : string) : bool :=
  (String.length prefix <=? String.length data)%nat
  && String.eqb (String.substring 0 (String.length prefix) data) prefix.

(** [strings.Contains(s, sub)] *)
Definition Contains (s sub : string) : bool :=
  match String.index 0 sub s with Some _ => true | None => false end.

(** ** pkg/telegram: the transport wrappers of [Bot] *)

Definition HandlerFunc : Type := Update → Prog unit.
Definition CommandHandler : Type := Message → Prog unit.
Definition CallbackHandler : Type := CallbackQuery → Prog unit.

Section Handlers.
Variable cfg : Config.

Definition SendMessage (chatID : Z) (text : string) : Prog (Message * error) :=
  call (ApiSend (NewMessage chatID text)).

Definition CreatePoll (chatID : Z) (question : string) (options : list string)
  : Prog (Message * error) :=
  let poll := NewPoll chatID question options in
  let poll := set_IsAnonymous false poll in
  call (ApiSend poll).

Definition AnswerCallbackQuery (callbackID text : string) : Prog error :=
  call (ApiRequest (NewCallback callbackID text)).

Definition EditMessage (chatID messageID : Z) (text : string) : Prog (Message * error) :=
  call (ApiSend (NewEditMessageText chatID messageID text)).

Definition Send (c : Chattable) : Prog (Message * error) := call (ApiSend c).

Definition GetFileURL (fileID : string) : Prog (string * error) :=
  '(file, err) ← call (ApiGetFile fileID);
  if is_err err
  then mret ("", Some ("failed to get file: " +:+ err_text err))
  else mret (Link file (BotToken cfg), None).

(** ** cmd/bot/main.go: command handlers *)

(** ["start"] *)
Definition start (message : Message) : Prog unit :=
  welcomeMsg ← call GenerateWelcomeMessage;
  SendMessage (ChatID message) welcomeMsg;;
  skip.

(** How many candidates the dinner handler asks the Advisor for. *)
Definition aiSuggestionCount (userSuggestions : list SuggestedDish) : Z :=
  let aiSuggestionCount := 4 in
  if 0 <? len userSuggestions then
    let aiSuggestionCount := 4 - len userSuggestions in
    if aiSuggestionCount <? 2 then 2 else aiSuggestionCount
  else aiSuggestionCount.

(** The three accumulators of the merge: [options], [dishNames] and
    [detailedMsg]. *)
Definition Merge : Type := list string * list string * string.

(** [for i, suggestion := range userSuggestions { ... }], entered with index
    [i]: fills slot [i] and marks the suggestion used. *)
Fixpoint addUserSuggestions (i : nat) (userSuggestions : list SuggestedDish)
    (acc : Merge) : Prog Merge :=
  match userSuggestions with
  | [] => mret acc
  | suggestion :: rest =>
      let '(options, dishNames, detailedMsg) := acc in
      let options := <[i := sd_Name suggestion]> options in
      let dishNames :=
        <[i := sd_Name suggestion +:+ " (" +:+ sd_Cuisine suggestion
               +:+ ") - suggested by @" +:+ sd_Username suggestion]> dishNames in
      let detailedMsg :=
        detailedMsg +:+ "🍴 *" +:+ sd_Name suggestion +:+ "* ("
          +:+ sd_Cuisine suggestion +:+ ")" +:+ NL +:+ sd_Description suggestion
          +:+ NL +:+ "_Suggested by @" +:+ sd_Username suggestion +:+ "_"
          +:+ NL +:+ NL in
      err ← call (MarkAsUsed (sd_ID suggestion));
      when (is_err err)
        (call (LogError ("Failed to mark suggestion as used: " +:+ err_text err)));;
      addUserSuggestions (S i) rest (options, dishNames, detailedMsg)
  end.

(** [for i, suggestion := range aiSuggestions { ... }], entered with index
    [i]: fills slot [len(userSuggestions) + i]. *)
Fixpoint addAISuggestions (nUser : nat) (i : nat) (aiSuggestions : list dict)
    (acc : Merge) : Merge :=
  match aiSuggestions with
  | [] => acc
  | suggestion :: rest =>
      let '(options, dishNames, detailedMsg) := acc in
      let name := get_string suggestion "name" in
      let cuisine := get_string suggestion "cuisine" in
      let description := get_string suggestion "description" in
      let index := (nUser + i)%nat in
      let options := <[index := name]> options in
      let dishNames := <[index := name +:+ " (" +:+ cuisine +:+ ")"]> dishNames in
      let detailedMsg :=
        detailedMsg +:+ "🍴 *" +:+ name +:+ "* (" +:+ cuisine +:+ ")" +:+ NL
          +:+ description +:+ NL +:+ NL in
      addAISuggestions nUser (S i) rest (options, dishNames, detailedMsg)
  end.

(** The tail of ["dinner"], from "Combine AI and user suggestions" on. *)
Definition dinnerPoll (chatID : Z) (processingMsg : Message)
    (userSuggestions : list SuggestedDish) (aiSuggestions : list dict) : Prog unit :=
  if (len aiSuggestions =? 0) && (len userSuggestions =? 0) then
    EditMessage chatID (MessageID processingMsg) "😢 I couldn't find any suitable dishes based on your fridge contents. Try adding more ingredients with /fridge or suggest your own dishes with /suggest.";;
    skip
  else
    let totalSuggestions := (length aiSuggestions + length userSuggestions)%nat in
    let options := replicate totalSuggestions "" in
    let dishNames := replicate totalSuggestions "" in
    let detailedMsg :=
      "🍲 Here are some dinner suggestions based on your ingredients:"
        +:+ NL +:+ NL in
    acc ← addUserSuggestions 0 userSuggestions (options, dishNames, detailedMsg);
    let '(options, dishNames, detailedMsg) :=
      addAISuggestions (length userSuggestions) 0 aiSuggestions acc in
    EditMessage chatID (MessageID processingMsg) detailedMsg;;
    '(pollMsg, err) ← CreatePoll chatID "What should we cook tonight?" options;
    if is_err err then
      call (LogError ("Failed to create poll: " +:+ err_text err));;
      errorMsg ← call (GenerateErrorMessage "create poll");
      SendMessage chatID errorMsg;;
      skip
    else
      err ← call (CreateVote chatID (fmt_d (MessageID pollMsg))
                    (MessageID pollMsg) options);
      when (is_err err)
        (call (LogError ("Failed to create vote state: " +:+ err_text err)));;
      SendMessage chatID "🗳 Please vote for your preferred dinner option! The poll is above.";;
      skip.

(** ["dinner"] *)
Definition dinner (message : Message) : Prog unit :=
  let chatID := ChatID message in
  '(ingredients, err) ← call (ListIngredients chatID);
  if is_err err then
    call (LogError ("Failed to list ingredients: " +:+ err_text err));;
    errorMsg ← call (GenerateErrorMessage "retrieve fridge contents");
    SendMessage chatID errorMsg;;
    skip
  else if len ingredients =? 0 then
    SendMessage chatID "😢 Your fridge is empty! Please add some ingredients with /sync_fridge or /add_photo before I can suggest dinner options.";;
    skip
  else
    let ingredientNames := Name <$> ingredients in
    '(processingMsg, _) ← SendMessage chatID "🧐 Thinking about dinner options based on your ingredients... This might take a moment.";
    '(userSuggestions, err) ← call (GetUnusedSuggestions chatID);
    when (is_err err)
      (call (LogError ("Failed to get user suggestions: " +:+ err_text err)));;
    let userSuggestions := if is_err err then [] else userSuggestions in
    let aiSuggestionCount := aiSuggestionCount userSuggestions in
    '(aiSuggestions, err) ←
      call (SuggestDinnerOptions ingredientNames (Cuisines cfg) aiSuggestionCount);
    if is_err err then
      call (LogError ("Failed to get dinner suggestions: " +:+ err_text err));;
      if len userSuggestions =? 0 then
        EditMessage chatID (MessageID processingMsg) "😢 Sorry, I couldn't come up with dinner suggestions right now. Please try again later.";;
        skip
      else
        dinnerPoll chatID processingMsg userSuggestions []
    else
      dinnerPoll chatID processingMsg userSuggestions aiSuggestions.

(** The fridge listing that ["fridge"], ["show_fridge"] and two callbacks
    each spell out: the ingredients sorted by name, one bullet per line. *)
Definition name_le (a b : Ingredient) : Prop := String.leb (Name a) (Name b) = true.

#[global] Instance name_le_dec : RelDecision name_le.
Proof. intros a b. unfold name_le. apply _. Defined.

Definition fridgeListing (ingredients : list Ingredient) : string :=
  let msgText := "🧊 Here's what's in your fridge:" +:+ NL +:+ NL in
  let ingredients := merge_sort name_le ingredients in
  foldl (λ msgText ingredient,
           if negb (String.eqb (Quantity ingredient) "")
           then msgText +:+ "• " +:+ Name ingredient +:+ " ("
                  +:+ Quantity ingredient +:+ ")" +:+ NL
           else msgText +:+ "• " +:+ Name ingredient +:+ NL)
        msgText ingredients.

(** ["fridge"]; ["show_fridge"] is the same code again. *)
Definition fridge (message : Message) : Prog unit :=
  let chatID := ChatID message in
  '(ingredients, err) ← call (ListIngredients chatID);
  if is_err err then
    call (LogError ("Failed to list ingredients: " +:+ err_text err));;
    SendMessage chatID "😢 Sorry, I couldn't retrieve your fridge contents right now. Please try again later.";;
    skip
  else if len ingredients =? 0 then
    SendMessage chatID "Your fridge is empty! Add ingredients with /sync_fridge or by sending a photo with /add_photo.";;
    skip
  else
    SendMessage chatID (fridgeListing ingredients);;
    skip.

Definition show_fridge (message : Message) : Prog unit := fridge message.

(** ["sync_fridge"] *)
Definition sync_fridge (message : Message) : Prog unit :=
  let chatID := ChatID message in
  err ← call (ResetFridge chatID);
  if is_err err then
    call (LogError ("Failed to reset fridge: " +:+ err_text err));;
    errorMsg ← call (GenerateErrorMessage "reset fridge");
    SendMessage chatID errorMsg;;
    skip
  else
    call (SetState chatID StateAddingIngredients);;
    SendMessage chatID "🧹 Fridge reset! Now, please send me a list of ingredients you have. You can send multiple messages, and I'll add all the ingredients to your fridge.";;
    skip.

(** [for _, ingredient := range ingredients { AddIngredient ... }]: a failed
    item is logged and the loop goes on. *)
Fixpoint addIngredients (chatID : Z) (ingredients : list string) : Prog unit :=
  match ingredients with
  | [] => skip
  | ingredient :: rest =>
      err ← call (AddIngredient chatID ingredient "");
      when (is_err err)
        (call (LogError ("Failed to add ingredient " +:+ ingredient +:+ ": "
                           +:+ err_text err)));;
      addIngredients chatID rest
  end.

(** The photo block that ["add_photo"] and the default handler each spell
    out: resolve the photo, ask the Advisor, add what it found, report; then
    go on with [next] (the keyboard prompt, which differs). *)
Definition ingestPhoto (chatID : Z) (photo : PhotoSize) (next : Prog unit) : Prog unit :=
  '(processingMsg, _) ← SendMessage chatID "🔍 Processing your photo... This might take a moment.";
  '(photoURL, err) ← GetFileURL (FileID photo);
  if is_err err then
    call (LogError ("Failed to get photo URL: " +:+ err_text err));;
    SendMessage chatID "😢 Sorry, I couldn't process your photo. Please try again.";;
    skip
  else
    '(ingredients, err) ← call (ExtractIngredientsFromPhoto photoURL);
    if is_err err then
      call (LogError ("Failed to extract ingredients from photo: " +:+ err_text err));;
      SendMessage chatID "😢 Sorry, I couldn't identify any ingredients in your photo. Please try again with a clearer photo.";;
      skip
    else if len ingredients =? 0 then
      SendMessage chatID "I couldn't identify any ingredients in your photo. Please try again with a clearer photo.";;
      skip
    else
      addIngredients chatID ingredients;;
      EditMessage chatID (MessageID processingMsg)
        ("✅ I found " +:+ fmt_d (len ingredients) +:+ " ingredients in your photo: "
           +:+ Join ingredients ", ");;
      next.

(** [message.Photo[len(message.Photo)-1]], read only where the slice is
    known to be non-empty. *)
Definition largestPhoto (photos : list PhotoSize) : PhotoSize :=
  default (mkPhotoSize "") (last photos).

Definition donePhotosKeyboard : InlineKeyboardMarkup :=
  [[mkButton "Done adding photos" "done_adding_photos"]].

Definition doneOrMoreKeyboard : InlineKeyboardMarkup :=
  [[mkButton "Done adding ingredients" "done_adding"; mkButton "Add more" "add_more"]].

(** ["add_photo"] *)
Definition add_photo (message : Message) : Prog unit :=
  let chatID := ChatID message in
  call (SetState chatID StateAddingPhotos);;
  if 0 <? len (Photo message) then
    let photo := largestPhoto (Photo message) in
    ingestPhoto chatID photo
      (Send (MessageConfig chatID "Send more photos of your fridge or pantry, and I'll extract ingredients from them. Press 'Done' when you're finished." (Some donePhotosKeyboard));;
       skip)
  else
    Send (MessageConfig chatID "📷 Please send photos of your fridge or pantry, and I'll extract ingredients from them. Send as many photos as you need, and I'll process each one. Press 'Cancel' if you want to stop." (Some [[mkButton "Cancel" "cancel_adding_photos"]]));;
    skip.

(** Modelled from the spec: [dinner.CompareIngredients] (pkg/dinner is not
    part of the embedded sources); the needed ingredients that have no
    case-sensitive exact match among the fridge names. *)
Definition CompareIngredients (needed fridgeNames : list string) : list string :=
  filter (λ n, n ∉ fridgeNames) needed.

(** [ing.(string)] into a slot that was made empty. *)
Definition string_or_empty (v : value) : string :=
  match v with VStr s => s | _ => "" end.

Definition bullets (items : list string) : string :=
  foldl (λ msg item, msg +:+ "• " +:+ item +:+ NL) "" items.

(** ["suggest"] *)
Definition suggest (message : Message) : Prog unit :=
  let chatID := ChatID message in
  let userID := fmt_d (user_ID (From message)) in
  let username := UserName (From message) in
  let username := if String.eqb username "" then FirstName (From message) else username in
  let args := CommandArguments message in
  if negb (String.eqb args "") then
    '(processingMsg, _) ← SendMessage chatID ("🧐 Looking up information about '" +:+ args +:+ "'... This might take a moment.");
    '(dishInfo, err) ← call (GetDishInfo args);
    if is_err err then
      call (LogError ("Failed to get dish info: " +:+ err_text err));;
      EditMessage chatID (MessageID processingMsg) ("😢 Sorry, I couldn't find information about '" +:+ args +:+ "'. Please try again with a different dish.");;
      skip
    else
      let dishName := get_string dishInfo "name" in
      let dishName := if String.eqb dishName "" then args else dishName in
      let cuisine := get_string dishInfo "cuisine" in
      let description := get_string dishInfo "description" in
      let ingredientsList :=
        match get_list dishInfo "ingredients_needed" with
        | Some l => Some l
        | None => get_list dishInfo "ingredients"
        end in
      let ingredientsNeeded :=
        match ingredientsList with
        | Some l => string_or_empty <$> l
        | None => []
        end in
      '(fridgeIngredients, err) ← call (ListIngredients chatID);
      when (is_err err)
        (call (LogError ("Failed to list ingredients: " +:+ err_text err)));;
      let fridgeIngredients := if is_err err then [] else fridgeIngredients in
      let missingIngredients :=
        if (0 <? len fridgeIngredients) && (0 <? len ingredientsNeeded)
        then CompareIngredients ingredientsNeeded (Name <$> fridgeIngredients)
        else [] in
      '(suggestion, err) ←
        call (AddSuggestion chatID userID username dishName cuisine description);
      if is_err err then
        call (LogError ("Failed to add suggestion: " +:+ err_text err));;
        EditMessage chatID (MessageID processingMsg) ("😢 Sorry, I couldn't save your suggestion for '" +:+ args +:+ "'. Please try again later.");;
        skip
      else
        let detailedMsg :=
          "✅ Thanks for suggesting *" +:+ sd_Name suggestion +:+ "* ("
            +:+ sd_Cuisine suggestion +:+ " cuisine)!" +:+ NL +:+ NL
            +:+ sd_Description suggestion +:+ NL +:+ NL in
        let detailedMsg :=
          if 0 <? len ingredientsNeeded
          then detailedMsg +:+ "*Ingredients needed:*" +:+ NL
                 +:+ bullets ingredientsNeeded +:+ NL
          else detailedMsg in
        let detailedMsg :=
          if 0 <? len missingIngredients
          then detailedMsg +:+ "*Missing from your fridge:*" +:+ NL
                 +:+ bullets missingIngredients +:+ NL
          else detailedMsg in
        let detailedMsg :=
          detailedMsg +:+ "Your suggestion will be included in future dinner polls." in
        EditMessage chatID (MessageID processingMsg) detailedMsg;;
        skip
  else
    SendMessage chatID "🍴 You can suggest a dish for dinner! Please use the command like this: /suggest Lasagna";;
    skip.

(** ** cmd/bot/main.go: the default handler *)

Definition defaultHandler (update : Update) : Prog unit :=
  match upd_Message update with
  | None => skip
  | Some message =>
      let chatID := ChatID message in
      if (0 <? len (Photo message)) && negb (IsCommand message) then
        chatState ← call (GetState chatID);
        if bool_decide (chatState = StateAddingIngredients)
           || bool_decide (chatState = StateAddingPhotos) then
          let photo := largestPhoto (Photo message) in
          ingestPhoto chatID photo
            (if bool_decide (chatState = StateAddingIngredients) then
               Send (MessageConfig chatID "Would you like to add more ingredients or are you done?" (Some doneOrMoreKeyboard));;
               skip
             else
               Send (MessageConfig chatID "Send more photos of your fridge or pantry, and I'll extract ingredients from them. Press 'Done' when you're finished." (Some donePhotosKeyboard));;
               skip)
        else
          SendMessage chatID "I see you sent a photo! If you want me to extract ingredients from it, please use the /add_photo command.";;
          skip
      else if negb (String.eqb (Text message) "") && negb (IsCommand message) then
        let text := Text message in
        st ← call (GetState chatID);
        if bool_decide (st = StateAddingIngredients) then
          '(ingredients, err) ← call (ParseIngredientsFromText text);
          if is_err err then
            call (LogError ("Failed to parse ingredients: " +:+ err_text err));;
            SendMessage chatID "😢 Sorry, I couldn't understand the ingredients. Please try again with a clearer list.";;
            skip
          else if len ingredients =? 0 then
            SendMessage chatID "I couldn't find any ingredients in your message. Please try again with a list of ingredients.";;
            skip
          else
            addIngredients chatID ingredients;;
            SendMessage chatID ("✅ Added " +:+ fmt_d (len ingredients)
                                  +:+ " ingredients to your fridge: "
                                  +:+ Join ingredients ", ");;
            Send (MessageConfig chatID "Would you like to add more ingredients or are you done?" (Some doneOrMoreKeyboard));;
            skip
        else
          st ← call (GetState chatID);
          if bool_decide (st = StateSuggestingDish) then
            call (ClearState chatID);;
            SendMessage chatID "🍴 Please use the /suggest command followed by a dish name, like: /suggest Lasagna";;
            skip
          else if negb (Contains text " ") && (Z.of_nat (String.length text) <? 30) then
            err ← call (AddIngredient chatID text "");
            if is_err err then
              call (LogError ("Failed to add ingredient: " +:+ err_text err));;
              SendMessage chatID ("😢 Sorry, I couldn't add " +:+ text +:+ " to your fridge.");;
              skip
            else
              SendMessage chatID ("✅ Added " +:+ text +:+ " to your fridge!");;
              skip
          else skip
      else skip
  end.

(** ** cmd/bot/main.go: callback handlers *)

Definition stripButtons (chatID messageID : Z) (text : string) : Chattable :=
  EditMessageTextConfig chatID messageID text (Some []).

(** [callbackHandlers["done_adding"]] *)
Definition done_adding (callback : CallbackQuery) : Prog unit :=
  let chatID := ChatID (cb_Message callback) in
  call (ClearState chatID);;
  AnswerCallbackQuery (cb_ID callback) "Thanks! Your fridge is now updated.";;
  Send (stripButtons chatID (MessageID (cb_Message callback)) "✅ Fridge update complete! Use /fridge to see your ingredients or /dinner to get dinner suggestions.");;
  skip.

(** [callbackHandlers["add_more"]] *)
Definition add_more (callback : CallbackQuery) : Prog unit :=
  let chatID := ChatID (cb_Message callback) in
  AnswerCallbackQuery (cb_ID callback) "Please send more ingredients!";;
  Send (stripButtons chatID (MessageID (cb_Message callback)) "Please send more ingredients. I'll add them to your fridge.");;
  skip.

(** [callbackHandlers["show_fridge"]] *)
Definition show_fridge_callback (callback : CallbackQuery) : Prog unit :=
  let chatID := ChatID (cb_Message callback) in
  AnswerCallbackQuery (cb_ID callback) "Here's what's in your fridge!";;
  Send (stripButtons chatID (MessageID (cb_Message callback)) "Here's what's in your fridge:");;
  '(ingredients, err) ← call (ListIngredients chatID);
  if is_err err then
    call (LogError ("Failed to list ingredients: " +:+ err_text err));;
    SendMessage chatID "😢 Sorry, I couldn't retrieve your fridge contents right now. Please try again later.";;
    skip
  else if len ingredients =? 0 then
    SendMessage chatID "Your fridge is empty! Add ingredients with /sync_fridge or by sending a photo with /add_photo.";;
    skip
  else
    SendMessage chatID (fridgeListing ingredients);;
    skip.

(** [callbackHandlers["done_adding_photos"]] *)
Definition done_adding_photos (callback : CallbackQuery) : Prog unit :=
  let chatID := ChatID (cb_Message callback) in
  call (ClearState chatID);;
  AnswerCallbackQuery (cb_ID callback) "Thanks! Your fridge is now updated with ingredients from your photos.";;
  Send (stripButtons chatID (MessageID (cb_Message callback)) "✅ Photo processing complete! I've added all the ingredients I found to your fridge.");;
  '(ingredients, err) ← call (ListIngredients chatID);
  if is_err err then
    call (LogError ("Failed to list ingredients: " +:+ err_text err));;
    skip
  else if len ingredients =? 0 then
    SendMessage chatID "Your fridge is still empty. Try adding ingredients with text or better photos.";;
    skip
  else
    SendMessage chatID (fridgeListing ingredients);;
    SendMessage chatID "You can now use /dinner to get dinner suggestions based on your ingredients!";;
    skip.

(** [callbackHandlers["cancel_adding_photos"]] *)
Definition cancel_adding_photos (callback : CallbackQuery) : Prog unit :=
  let chatID := ChatID (cb_Message callback) in
  call (ClearState chatID);;
  AnswerCallbackQuery (cb_ID callback) "Photo adding cancelled.";;
  Send (stripButtons chatID (MessageID (cb_Message callback)) "Photo adding cancelled. You can use /fridge to see your current ingredients or /dinner to get dinner suggestions.");;
  skip.

(** The two handler tables [main] builds. *)
Definition commandHandlers : gmap string CommandHandler :=
  list_to_map
    [("start", start); ("dinner", dinner); ("fridge", fridge);
     ("sync_fridge", sync_fridge); ("show_fridge", show_fridge);
     ("add_photo", add_photo); ("suggest", suggest)].

Definition callbackHandlers : gmap string CallbackHandler :=
  <["cancel_adding_photos" := cancel_adding_photos]>
    (<["done_adding_photos" := done_adding_photos]>
       (<["show_fridge" := show_fridge_callback]>
          (<["add_more" := add_more]>
             (<["done_adding" := done_adding]> ∅)))).

End Handlers.

(** ** pkg/telegram: [Bot.Start] *)

(** The chat the update belongs to, [0] when it has neither a message nor a
    callback query. *)
Definition updateChatID (update : Update) : Z :=
  match upd_Message update with
  | Some message => ChatID message
  | None =>
      match upd_CallbackQuery update with
      | Some callback => ChatID (cb_Message callback)
      | None => 0
      end
  end.

(** [b.logger] after the head of the loop body. *)
Definition updateLogger (logger : string) (update : Update) : string :=
  if updateChatID update =? 0 then logger else fmt_d (updateChatID update).

(** [for prefix, handler := range callbackHandlers { ... break }], with the
    map's entries in the order this iteration visits them.  Go leaves the
    iteration order of a map unspecified; [order] is that order. *)
Fixpoint rangeCallbacks (logger : string) (order : list (string * CallbackHandler))
    (callback : CallbackQuery) : Prog unit :=
  match order with
  | [] => skip
  | (prefix, handler) :: rest =>
      if has_prefix (Data callback) prefix then
        call (LogInfo logger ("Handling callback: " +:+ Data callback
                                +:+ " from user " +:+ UserName (cb_From callback)));;
        handler callback
      else rangeCallbacks logger rest callback
  end.

(** An order in which a [range] may visit the map [m]. *)
Definition range_order {V : Type} (m : gmap string V) (order : list (string * V)) : Prop :=
  order ≡ₚ map_to_list m.

(** The command the update carries a registered handler for. *)
Definition commandOf (commandHandlers : gmap string CommandHandler) (update : Update)
  : option (Message * CommandHandler) :=
  match upd_Message update with
  | Some message =>
      if IsCommand message
      then handler ← commandHandlers !! Command message; Some (message, handler)
      else None
  | None => None
  end.

(** One turn of the loop of [Bot.Start], after [b.logger] was set. *)
Definition handleUpdate (logger : string)
    (commandHandlers : gmap string CommandHandler)
    (order : list (string * CallbackHandler))
    (defaultHandler : option HandlerFunc) (update : Update) : Prog unit :=
  match commandOf commandHandlers update with
  | Some (message, handler) =>
      call (LogInfo logger ("Handling command: " +:+ Command message
                              +:+ " from user " +:+ UserName (From message)));;
      handler message
  | None =>
      match upd_CallbackQuery update with
      | Some callback => rangeCallbacks logger order callback
      | None =>
          match defaultHandler with
          | Some handler => handler update
          | None => skip
          end
      end
  end.

(** [Bot.Start] on the updates received until the channel closes, each with
    the order its [range] over the callback table takes. *)
Fixpoint Start (logger : string)
    (commandHandlers : gmap string CommandHandler)
    (defaultHandler : option HandlerFunc)
    (updates : list (Update * list (string * CallbackHandler))) : Prog error :=
  match updates with
  | [] => mret None
  | (update, order) :: rest =>
      let logger := updateLogger logger update in
      handleUpdate logger commandHandlers order defaultHandler update;;
      Start logger commandHandlers defaultHandler rest
  end.

(** The loop [main] starts: [bot.Start(commandHandlers, callbackHandlers,
    defaultHandler)] on a bot whose logger has the empty prefix. *)
Definition botLoop (cfg : Config)
    (updates : list (Update * list (string * CallbackHandler))) : Prog error :=
  Start "" (commandHandlers cfg) (Some (defaultHandler cfg)) updates.

(** ** A reference environment

    The collaborators are not part of the embedded sources.  The properties
    below hold in every environment; this one gives them something to run
    in. *)

(** The Advisor's answers. *)
Record Advisor := mkAdvisor {
  adv_dishes : list string → list string → Z → list dict * error;
  adv_photo : string → list string * error;
  adv_text : string → list string * error;
  adv_dish : string → dict * error
}.

(** Modelled from the spec: the Ingredient Store, the Suggestion Pool, the
    Chat State Store and the Vote Ledger (pkg/fridge, pkg/suggest, pkg/state
    and pkg/poll are not part of the embedded sources), as in-memory maps
    keyed by chat, with a switch that makes the durable store fail and one
    that makes the transport fail. *)
Record World := mkWorld {
  w_fridge : gmap Z (list Ingredient);
  w_pool : list SuggestedDish;
  w_modes : gmap Z State;
  w_votes : list (Z * string * list string);
  w_next_message : Z;
  w_advisor : Advisor;
  w_store_down : bool;
  w_transport_down : bool
}.

Definition chat_of (c : Chattable) : Z :=
  match c with
  | MessageConfig chat _ _ => chat
  | EditMessageTextConfig chat _ _ _ => chat
  | SendPollConfig chat _ _ _ => chat
  | CallbackConfig _ _ => 0
  end.

Definition zeroUser : User := mkUser 0 "" "".
Definition zeroMessage : Message := mkMessage 0 zeroUser 0 "" [] false "" "".
Definition zeroDish : SuggestedDish := mkSuggestedDish "" 0 "" "" "" "" "" false.

Definition store_error : error := Some "store unavailable".
Definition transport_error : error := Some "transport unavailable".

(** Re-adding a name overwrites its quantity. *)
Fixpoint upsert (name quantity : string) (l : list Ingredient) : list Ingredient :=
  match l with
  | [] => [mkIngredient name quantity]
  | i :: rest =>
      if String.eqb (Name i) name then mkIngredient name quantity :: rest
      else i :: upsert name quantity rest
  end.

Definition mark_used (id : string) (s : SuggestedDish) : SuggestedDish :=
  if String.eqb (sd_ID s) id
  then mkSuggestedDish (sd_ID s) (sd_ChatID s) (sd_UserID s) (sd_Username s)
         (sd_Name s) (sd_Cuisine s) (sd_Description s) true
  else s.

Definition with_fridge (w : World) (f : gmap Z (list Ingredient)) : World :=
  mkWorld f (w_pool w) (w_modes w) (w_votes w) (w_next_message w) (w_advisor w)
    (w_store_down w) (w_transport_down w).

Definition with_pool (w : World) (p : list SuggestedDish) : World :=
  mkWorld (w_fridge w) p (w_modes w) (w_votes w) (w_next_message w) (w_advisor w)
    (w_store_down w) (w_transport_down w).

Definition with_modes (w : World) (m : gmap Z State) : World :=
  mkWorld (w_fridge w) (w_pool w) m (w_votes w) (w_next_message w) (w_advisor w)
    (w_store_down w) (w_transport_down w).

Definition with_votes (w : World) (v : list (Z * string * list string)) : World :=
  mkWorld (w_fridge w) (w_pool w) (w_modes w) v (w_next_message w) (w_advisor w)
    (w_store_down w) (w_transport_down w).

Definition with_next_message (w : World) (n : Z) : World :=
  mkWorld (w_fridge w) (w_pool w) (w_modes w) (w_votes w) n (w_advisor w)
    (w_store_down w) (w_transport_down w).

Definition refAnswer (c : Call) (w : World) : reply c * World :=
  match c as c' return reply c' * World with
  | ApiSend msg =>
      if w_transport_down w then ((zeroMessage, transport_error), w)
      else ((mkMessage (w_next_message w) zeroUser (chat_of msg) "" [] false "" "", None),
            with_next_message w (w_next_message w + 1))
  | ApiRequest _ =>
      (if w_transport_down w then transport_error else None, w)
  | ApiGetFile file_id =>
      if w_transport_down w then ((mkFile "", transport_error), w)
      else ((mkFile ("photos/" +:+ file_id), None), w)
  | ListIngredients chat =>
      if w_store_down w then (([], store_error), w)
      else ((default [] (w_fridge w !! chat), None), w)
  | ResetFridge chat =>
      if w_store_down w then (store_error, w)
      else (None, with_fridge w (delete chat (w_fridge w)))
  | AddIngredient chat name quantity =>
      if w_store_down w then (store_error, w)
      else (None, with_fridge w
                    (<[chat := upsert name quantity (default [] (w_fridge w !! chat))]>
                       (w_fridge w)))
  | GetUnusedSuggestions chat =>
      if w_store_down w then (([], store_error), w)
      else ((filter (λ s, sd_ChatID s = chat ∧ sd_Used s = false) (w_pool w), None), w)
  | MarkAsUsed id =>
      if w_store_down w then (store_error, w)
      else (None, with_pool w (mark_used id <$> w_pool w))
  | AddSuggestion chat user_id username name cuisine description =>
      if w_store_down w then ((zeroDish, store_error), w)
      else
        let s := mkSuggestedDish ("s" +:+ pretty (length (w_pool w))) chat user_id
                   username name cuisine description false in
        ((s, None), with_pool w (w_pool w ++ [s]))
  | CreateVote chat poll_id _ options =>
      if w_store_down w then (store_error, w)
      else (None, with_votes w (w_votes w ++ [(chat, poll_id, options)]))
  | SuggestDinnerOptions ingredients cuisines count =>
      (adv_dishes (w_advisor w) ingredients cuisines count, w)
  | ExtractIngredientsFromPhoto url => (adv_photo (w_advisor w) url, w)
  | ParseIngredientsFromText text => (adv_text (w_advisor w) text, w)
  | GetDishInfo name => (adv_dish (w_advisor w) name, w)
  | GenerateWelcomeMessage => ("Welcome!", w)
  | GenerateErrorMessage operation => ("Sorry, I could not " +:+ operation +:+ ".", w)
  | GetState chat => (default StateNone (w_modes w !! chat), w)
  | SetState chat st => (tt, with_modes w (<[chat := st]> (w_modes w)))
  | ClearState chat => (tt, with_modes w (delete chat (w_modes w)))
  | LogInfo _ _ => (tt, w)
  | LogError _ => (tt, w)
  end.

(** ** Observing a run *)

(** What a call was, when it is of the kind asked for. *)
Definition poll_options (c : Call) : option (list string) :=
  match c with ApiSend (SendPollConfig _ _ options _) => Some options | _ => None end.

Definition requested_count (c : Call) : option Z :=
  match c with SuggestDinnerOptions _ _ count => Some count | _ => None end.

Definition marked_used (c : Call) : option string :=
  match c with MarkAsUsed id => Some id | _ => None end.

Definition upserted (c : Call) : option (Z * string * string) :=
  match c with AddIngredient chat name quantity => Some (chat, name, quantity) | _ => None end.

Definition acknowledged (c : Call) : option string :=
  match c with ApiRequest (CallbackConfig id _) => Some id | _ => None end.

Definition mode_written (c : Call) : option Z :=
  match c with
  | SetState chat _ => Some chat
  | ClearState chat => Some chat
  | _ => None
  end.

Definition is_advisor_call (c : Call) : bool :=
  match c with
  | SuggestDinnerOptions _ _ _ | ExtractIngredientsFromPhoto _
  | ParseIngredientsFromText _ | GetDishInfo _ => true
  | _ => false
  end.

Definition is_mark_or_log (c : Call) : bool :=
  match c with MarkAsUsed _ | LogError _ => true | _ => false end.

(** The dish handed to the Suggestion Pool: chat, proposer id, proposer
    name, dish name, cuisine, description. *)
Definition added_suggestion (c : Call)
  : option (Z * string * string * string * string * string) :=
  match c with
  | AddSuggestion chat user_id username name cuisine description =>
      Some (chat, user_id, username, name, cuisine, description)
  | _ => None
  end.

Definition ack_text (c : Call) : option string :=
  match c with ApiRequest (CallbackConfig _ text) => Some text | _ => None end.

(** What a call was answered, when it is of the kind asked for. *)
Definition unused_reply (e : Event) : option (list SuggestedDish * error) :=
  match e with
  | existT c r =>
      match c as c' return reply c' → option (list SuggestedDish * error) with
      | GetUnusedSuggestions _ => Some
      | _ => λ _, None
      end r
  end.

Definition dishes_reply (e : Event) : option (list dict * error) :=
  match e with
  | existT c r =>
      match c as c' return reply c' → option (list dict * error) with
      | SuggestDinnerOptions _ _ _ => Some
      | _ => λ _, None
      end r
  end.

Definition extraction_reply (e : Event) : option (list string * error) :=
  match e with
  | existT c r =>
      match c as c' return reply c' → option (list string * error) with
      | ExtractIngredientsFromPhoto _ => Some
      | ParseIngredientsFromText _ => Some
      | _ => λ _, None
      end r
  end.

Definition dish_info_reply (e : Event) : option (dict * error) :=
  match e with
  | existT c r =>
      match c as c' return reply c' → option (dict * error) with
      | GetDishInfo _ => Some
      | _ => λ _, None
      end r
  end.

(** The value the Go code goes on with after [v, err := f()] where it
    replaces the value on an error. *)
Definition or_empty {A : Type} (r : list A * error) : list A :=
  if is_err r.2 then [] else r.1.

(** The unused suggestions the dinner handler works with in a run: what the
    pool answered, or none when the lookup failed. *)
Definition unused_in (t : list Event) : list SuggestedDish :=
  from_option or_empty [] (head (omap unused_reply t)).

(** The AI candidates the dinner handler works with in a run: what the
    Advisor answered, or none when the call failed. *)
Definition candidates_in (t : list Event) : list dict :=
  from_option or_empty [] (head (omap dishes_reply t)).

(** ** Sample data *)

Definition noAdvisor : Advisor :=
  mkAdvisor (λ _ _ _, ([], Some "advisor unavailable"))
            (λ _, ([], Some "advisor unavailable"))
            (λ _, ([], Some "advisor unavailable"))
            (λ _, (∅, Some "advisor unavailable")).

Definition dish (name cuisine description : string) : dict :=
  <["description" := VStr description]>
    (<["cuisine" := VStr cuisine]> (<["name" := VStr name]> ∅)).

(** An Advisor that proposes as many dishes as asked for (up to five), finds
    milk and butter on every photo, splits a text at commas and knows
    lasagna. *)
Definition sampleAdvisor : Advisor :=
  mkAdvisor
    (λ _ _ count,
       (take (Z.to_nat count)
          [dish "Pasta al pomodoro" "Italian" "Pasta in tomato sauce";
           dish "Tomato soup" "European" "A simple soup";
           dish "Pasta salad" "European" "Cold pasta with tomato";
           dish "Bruschetta" "Italian" "Toast with tomato";
           dish "Shakshuka" "Israeli" "Eggs in tomato sauce"], None))
    (λ _, (["Milk"; "Butter"], None))
    (λ text, (if String.eqb text "" then [] else ["Eggs"; "Flour"], None))
    (λ name, (<["ingredients_needed" := VList [VStr "Pasta"; VStr "Cheese"]]>
                (dish "Lasagna" "Italian" "Layers of pasta"), None)).

Definition emptyWorld (a : Advisor) : World := mkWorld ∅ [] ∅ [] 100 a false false.

Definition alice : User := mkUser 7 "alice" "Alice".

Definition command (chat : Z) (name args : string) : Message :=
  mkMessage 1 alice chat ("/" +:+ name +:+ " " +:+ args) [] true name args.

Definition textMessage (chat : Z) (text : string) : Message :=
  mkMessage 2 alice chat text [] false "" "".

Definition photoMessage (chat : Z) : Message :=
  mkMessage 3 alice chat "" [mkPhotoSize "small"; mkPhotoSize "large"] false "" "".

(** The photo command sent as the caption of two sizes of one photo. *)
Definition photoCommand (chat : Z) : Message :=
  mkMessage 4 alice chat "/add_photo" [mkPhotoSize "small"; mkPhotoSize "large"]
    true "add_photo" "".

Definition press (chat : Z) (data : string) : CallbackQuery :=
  mkCallbackQuery "cb1" alice (mkMessage 50 zeroUser chat "" [] false "" "") data.

Definition carbonara : SuggestedDish :=
  mkSuggestedDish "s0" 1 "7" "alice" "Carbonara" "Italian" "Eggs and bacon" false.

Definition sampleConfig : Config := mkConfig "TOKEN" ["European"; "Italian"].

(** Chat 1 has tomato and pasta in the fridge and carbonara suggested. *)
Definition sampleWorld (a : Advisor) : World :=
  mkWorld {[ 1 := [mkIngredient "Tomato" ""; mkIngredient "Pasta" ""] ]}
          [carbonara] ∅ [] 100 a false false.

(** The same chat while the transport is down. *)
Definition offlineWorld (a : Advisor) : World :=
  mkWorld {[ 1 := [mkIngredient "Tomato" ""; mkIngredient "Pasta" ""] ]}
          [carbonara] ∅ [] 100 a false true.

(** The same chat with eleven unused suggestions. *)
Definition crowdedWorld (a : Advisor) : World :=
  mkWorld {[ 1 := [mkIngredient "Tomato" ""; mkIngredient "Pasta" ""] ]}
          ((λ n : nat, mkSuggestedDish ("s" +:+ pretty n) 1 "7" "alice"
                         ("Dish " +:+ pretty n) "Any" "" false) <$> seq 0 11)
          ∅ [] 100 a false false.

(** Chat 1 after a fridge reset: empty fridge, adding ingredients. *)
Definition addingWorld (a : Advisor) : World :=
  mkWorld ∅ [] {[ 1 := StateAddingIngredients ]} [] 100 a false false.

(** An Advisor that describes a dish without naming it. *)
Definition namelessAdvisor : Advisor :=
  mkAdvisor (adv_dishes sampleAdvisor) (adv_photo sampleAdvisor)
            (adv_text sampleAdvisor)
            (λ _, (<["description" := VStr "Layers of pasta"]>
                     (<["cuisine" := VStr "Italian"]> ∅), None)).

(** Chat 1 with a tomato in the fridge and nothing suggested. *)
Definition tomatoWorld (a : Advisor) : World :=
  mkWorld {[ 1 := [mkIngredient "Tomato" ""] ]} [] ∅ [] 100 a false false.

(** An empty store that fails. *)
Definition downWorld (a : Advisor) : World :=
  mkWorld ∅ [] ∅ [] 100 a true false.

(** Chat 1 adding ingredients while the store fails. *)
Definition addingDownWorld (a : Advisor) : World :=
  mkWorld ∅ [] {[ 1 := StateAddingIngredients ]} [] 100 a true false.

(** Chat 1 parked in the reserved dish-suggesting mode. *)
Definition suggestingWorld (a : Advisor) : World :=
  mkWorld ∅ [] {[ 1 := StateSuggestingDish ]} [] 100 a false false.

(** ** Further observations of a run *)

(** Every call the handler can make, on every path through it, satisfies
    [P]. *)
Fixpoint all_calls {A : Type} (P : Call → Prop) (p : Prog A) : Prop :=
  match p with
  | Ret _ => True
  | Do c k => P c ∧ ∀ r, all_calls P (k r)
  end.

(** The chat a call is about, for the calls that name one. *)
Definition call_chat (c : Call) : option Z :=
  match c with
  | ApiSend (MessageConfig chat _ _) => Some chat
  | ApiSend (EditMessageTextConfig chat _ _ _) => Some chat
  | ApiSend (SendPollConfig chat _ _ _) => Some chat
  | ListIngredients chat | ResetFridge chat | AddIngredient chat _ _ => Some chat
  | GetUnusedSuggestions chat | AddSuggestion chat _ _ _ _ _ => Some chat
  | CreateVote chat _ _ _ => Some chat
  | GetState chat | SetState chat _ | ClearState chat => Some chat
  | _ => None
  end.

Definition about_chat (chat : Z) (c : Call) : Prop :=
  match call_chat c with Some ch => ch = chat | None => True end.

(** The calls that change something outside the handler, by kind. *)
Inductive Kind : Type :=
| KReset | KUpsert | KMark | KAddSuggestion | KVote | KSetMode | KClearMode | KPoll.

#[global] Instance Kind_eq_dec : EqDecision Kind.
Proof. solve_decision. Defined.

Definition kind_of (c : Call) : option Kind :=
  match c with
  | ResetFridge _ => Some KReset
  | AddIngredient _ _ _ => Some KUpsert
  | MarkAsUsed _ => Some KMark
  | AddSuggestion _ _ _ _ _ _ => Some KAddSuggestion
  | CreateVote _ _ _ _ => Some KVote
  | SetState _ _ => Some KSetMode
  | ClearState _ => Some KClearMode
  | ApiSend (SendPollConfig _ _ _ _) => Some KPoll
  | _ => None
  end.

Definition only (kinds : list Kind) (c : Call) : Prop :=
  match kind_of c with Some k => k ∈ kinds | None => True end.

(** What each command may change. *)
Definition command_kinds (name : string) : list Kind :=
  if String.eqb name "dinner" then [KMark; KPoll; KVote]
  else if String.eqb name "suggest" then [KAddSuggestion]
  else if String.eqb name "sync_fridge" then [KReset; KSetMode]
  else if String.eqb name "add_photo" then [KSetMode; KUpsert]
  else [].

(** What each button may change. *)
Definition callback_kinds (tag : string) : list Kind :=
  if String.eqb tag "add_more" then []
  else if String.eqb tag "show_fridge" then []
  else [KClearMode].

Definition vote_recorded (c : Call) : option (Z * string * Z * list string) :=
  match c with
  | CreateVote chat poll_id message_id options => Some (chat, poll_id, message_id, options)
  | _ => None
  end.

Definition file_requested (c : Call) : option string :=
  match c with ApiGetFile file_id => Some file_id | _ => None end.

Definition poll_is_public (c : Call) : Prop :=
  match c with
  | ApiSend (SendPollConfig _ _ _ is_anonymous) => is_anonymous = false
  | _ => True
  end.

(** A poll send with what the transport answered: the options, the message
    and the error. *)
Definition poll_sent (e : Event) : option (list string * Message * error) :=
  match e with
  | existT c r =>
      match c as c' return reply c' → option (list string * Message * error) with
      | ApiSend (SendPollConfig _ _ options _) => λ r, Some (options, r.1, r.2)
      | _ => λ _, None
      end r
  end.

Definition photo_url (c : Call) : option string :=
  match c with ExtractIngredientsFromPhoto url => Some url | _ => None end.

Definition is_upsert_or_log (c : Call) : bool :=
  match c with AddIngredient _ _ _ | LogError _ => true | _ => false end.

Definition file_reply (e : Event) : option (File * error) :=
  match e with
  | existT c r =>
      match c as c' return reply c' → option (File * error) with
      | ApiGetFile _ => Some
      | _ => λ _, None
      end r
  end.

(** The vote state the dinner handler records for a poll send. *)
Definition vote_for (chat : Z) (sent : list string * Message * error)
  : option (Z * string * Z * list string) :=
  let '(options, pollMsg, err) := sent in
  if is_err err then None
  else Some (chat, fmt_d (MessageID pollMsg), MessageID pollMsg, options).

(** The event of a call [c] that was answered [r]. *)
Definition event (c : Call) (r : reply c) : Event := existT c r.

(** What the transport answered to a send. *)
Definition send_reply (e : Event) : option (Message * error) :=
  match e with
  | existT c r =>
      match c as c' return reply c' → option (Message * error) with
      | ApiSend _ => Some
      | _ => λ _, None
      end r
  end.

(** The error message that was generated. *)
Definition generated_reply (e : Event) : option string :=
  match e with
  | existT c r =>
      match c as c' return reply c' → option string with
      | GenerateErrorMessage _ => Some
      | _ => λ _, None
      end r
  end.

(** A call to the Advisor. *)
Definition advisor_call (c : Call) : option Call :=
  if is_advisor_call c then Some c else None.

(** A write of a chat's mode, as the call it was. *)
Definition mode_call (c : Call) : option Call :=
  match c with
  | SetState _ _ | ClearState _ => Some c
  | _ => None
  end.

(** An edit of a message: the chat, the message and the keyboard the edit
    leaves it with. *)
Definition edited (c : Call) : option (Z * Z * option InlineKeyboardMarkup) :=
  match c with
  | ApiSend (EditMessageTextConfig chat message_id _ markup) =>
      Some (chat, message_id, markup)
  | _ => None
  end.

(** The buttons whose handlers clear the mode. *)
Definition clears_mode (tag : string) : bool :=
  negb (String.eqb tag "add_more" || String.eqb tag "show_fridge").

(** What the chat is told when the Advisor failed, and when it found
    nothing: for a text, and for a photo. *)
Definition textApology : string * string :=
  ("😢 Sorry, I couldn't understand the ingredients. Please try again with a clearer list.",
   "I couldn't find any ingredients in your message. Please try again with a list of ingredients.").

Definition photoApology : string * string :=
  ("😢 Sorry, I couldn't identify any ingredients in your photo. Please try again with a clearer photo.",
   "I couldn't identify any ingredients in your photo. Please try again with a clearer photo.").

(** The failure policy of ingestion, for a run [t] in a chat.  The Advisor
    is asked once, and what it is asked is [request].  When it fails, or
    finds nothing, no ingredient is upserted and the run ends by telling the
    chat so; when it finds some, exactly those are upserted, each with an
    empty quantity, in the Advisor's order. *)
Definition ingestion_policy (chat : Z) (request : Call) (apology : string * string)
    (t : list Event) : Prop :=
  let cs := ev_call <$> t in
  omap advisor_call cs = [request]
  ∧ ∃ names err,
      omap extraction_reply t = [(names, err)]
      ∧ if is_err err then
          omap upserted cs = []
          ∧ last cs = Some (ApiSend (NewMessage chat apology.1))
        else
          match names with
          | [] =>
              omap upserted cs = []
              ∧ last cs = Some (ApiSend (NewMessage chat apology.2))
          | _ :: _ => omap upserted cs = (λ name, (chat, name, "")) <$> names
          end.

(** The same for a photo, which the transport first has to resolve to a
    file: the file asked for is the photo's and no other.  When the
    transport cannot resolve it the Advisor is not asked, nothing is upserted
    and the run ends by telling the chat; when it can, the Advisor is asked
    about the file's link under the bot's token. *)
Definition photo_ingestion_policy (token : string) (chat : Z) (photo : PhotoSize)
    (t : list Event) : Prop :=
  let cs := ev_call <$> t in
  omap file_requested cs = [FileID photo]
  ∧ ∃ file err,
      omap file_reply t = [(file, err)]
      ∧ if is_err err then
          omap advisor_call cs = []
          ∧ omap upserted cs = []
          ∧ last cs = Some (ApiSend (NewMessage chat
                              "😢 Sorry, I couldn't process your photo. Please try again."))
        else
          ingestion_policy chat (ExtractIngredientsFromPhoto (Link file token))
            photoApology t.

(** * Properties *)

Section Properties.
Context {W : Type}.
Variable answer : ∀ c : Call, W → reply c * W.
Variable cfg : Config.

(** *** Running sequenced programs *)

Lemma run_bind {A B : Type} (p : Prog A) (f : A → Prog B) (w : W) :
  run answer (p ≫= f) w =
    let '(a, w1, t1) := run answer p w in
    let '(b, w2, t2) := run answer (f a) w1 in
    (b, w2, (t1 ++ t2)%list).
Proof.
  revert w. induction p as [a | c k IH]; intros w.
  - simpl. destruct (run answer (f a) w) as [[b w2] t2]. reflexivity.
  - change (run answer (Do c k ≫= f) w)
      with (let r := answer c w in
            let s := run answer (k r.1 ≫= f) r.2 in
            (s.1.1, s.1.2, existT c r.1 :: s.2)).
    simpl. rewrite IH.
    destruct (run answer (k (answer c w).1) (answer c w).2) as [[a w2] t1].
    simpl. destruct (run answer (f a) w2) as [[b w3] t2]. reflexivity.
Qed.

Lemma trace_bind {A B : Type} (p : Prog A) (f : A → Prog B) (w : W) :
  trace answer (p ≫= f) w =
    (trace answer p w ++ trace answer (f (result answer p w)) (final answer p w))%list.
Proof.
  unfold trace, result, final. rewrite run_bind.
  destruct (run answer p w) as [[a w1] t1]. simpl.
  destruct (run answer (f a) w1) as [[b w2] t2]. reflexivity.
Qed.

(** The two equations the stepping tactics below apply, by conversion. *)
Lemma trace_call {A : Type} (c : Call) (k : reply c → Prog A) (w : W) :
  trace answer (call c ≫= k) w =
    existT c (answer c w).1 :: trace answer (k (answer c w).1) (answer c w).2.
Proof. reflexivity. Qed.

Lemma trace_ret {A : Type} (a : A) (w : W) : trace answer (mret a) w = [].
Proof. reflexivity. Qed.

Lemma trace_skip (w : W) : trace answer skip w = [].
Proof. reflexivity. Qed.

Lemma result_call {A : Type} (c : Call) (k : reply c → Prog A) (w : W) :
  result answer (call c ≫= k) w = result answer (k (answer c w).1) (answer c w).2.
Proof. reflexivity. Qed.

Lemma calls_app {A B : Type} (p : Prog A) (f : A → Prog B) (w : W) :
  calls answer (p ≫= f) w =
    (calls answer p w ++ calls answer (f (result answer p w)) (final answer p w))%list.
Proof. unfold calls. rewrite trace_bind, fmap_app. reflexivity. Qed.

(** One call: its event is recorded and the run goes on with its answer. *)
Ltac step_keep :=
  lazymatch goal with
  | |- context [trace ?ans (@mbind Prog _ _ _ ?k (call ?c)) ?w] =>
      change (trace ans (mbind k (call c)) w)
        with (existT c (ans c w).1 :: trace ans (k (ans c w).1) (ans c w).2);
      cbv beta
  | |- context [trace ?ans (@mbind Prog _ _ _ ?g (@mbind Prog _ _ _ ?f (call ?c))) ?w] =>
      change (trace ans (mbind g (mbind f (call c))) w)
        with (existT c (ans c w).1 :: trace ans (mbind g (f (ans c w).1)) (ans c w).2);
      cbv beta
  | |- context [result ?ans (@mbind Prog _ _ _ ?k (call ?c)) ?w] =>
      change (result ans (mbind k (call c)) w)
        with (result ans (k (ans c w).1) (ans c w).2);
      cbv beta
  end.

Ltac open_wrappers :=
  unfold SendMessage, EditMessage, CreatePoll, Send, AnswerCallbackQuery, when;
  cbv zeta.

Ltac step :=
  lazymatch goal with
  | |- context [trace ?ans (@mbind Prog _ _ _ ?k (call ?c)) ?w] =>
      step_keep;
      let r := fresh "r" in
      let w' := fresh "w" in
      destruct (ans c w) as [r w']; cbn [fst snd] in *
  | |- context [result ?ans (@mbind Prog _ _ _ ?k (call ?c)) ?w] =>
      step_keep;
      let r := fresh "r" in
      let w' := fresh "w" in
      destruct (ans c w) as [r w']; cbn [fst snd] in *
  end.

Tactic Notation "step" "as" simple_intropattern(pat) :=
  lazymatch goal with
  | |- context [trace ?ans (@mbind Prog _ _ _ ?k (call ?c)) ?w] =>
      step_keep;
      let w' := fresh "w" in
      destruct (ans c w) as [pat w']; cbn [fst snd] in *
  | |- context [trace ?ans (@mbind Prog _ _ _ ?g (@mbind Prog _ _ _ ?f (call ?c))) ?w] =>
      step_keep;
      let w' := fresh "w" in
      destruct (ans c w) as [pat w']; cbn [fst snd] in *
  | |- context [result ?ans (@mbind Prog _ _ _ ?k (call ?c)) ?w] =>
      step_keep;
      let w' := fresh "w" in
      destruct (ans c w) as [pat w']; cbn [fst snd] in *
  end.

(** [skip] in front of a continuation. *)
Ltac step_skip :=
  lazymatch goal with
  | |- context [@mbind Prog _ _ _ ?k skip] =>
      change (mbind k skip) with (k tt); cbv beta
  end.

(** A returned value in front of a continuation. *)
Ltac step_ret :=
  lazymatch goal with
  | |- context [@mbind Prog _ _ _ ?k (mret ?a)] =>
      change (mbind k (mret a)) with (k a); cbv beta iota
  end.

(** *** List facts *)

Lemma omap_none_Forall {A B : Type} (f : A → option B) (l : list A) :
  Forall (λ x, f x = None) l → omap f l = [].
Proof.
  induction 1 as [|x l Hx _ IH]; [reflexivity|].
  cbn. rewrite Hx. exact IH.
Qed.

Lemma omap_nil_Forall {A B : Type} (f : A → option B) (l : list A) :
  omap f l = [] → Forall (λ x, f x = None) l.
Proof.
  induction l as [|x l IH]; [constructor|].
  cbn. destruct (f x) eqn:Hx; [discriminate|].
  intros H. constructor; [exact Hx | exact (IH H)].
Qed.

(** Where the only element with a property sits in a list. *)
Lemma split_at_unique {A : Type} (P : A → Prop) (l1 l2 k1 k2 : list A) (x y : A) :
  (l1 ++ x :: l2 = k1 ++ y :: k2)%list →
  Forall (λ a, ¬ P a) l1 → Forall (λ a, ¬ P a) l2 → P y →
  k1 = l1 ∧ y = x.
Proof.
  revert k1. induction l1 as [|a l1 IH]; intros k1 Heq Hl1 Hl2 Hy.
  - destruct k1 as [|b k1]; cbn in Heq.
    + injection Heq as <- _. split; reflexivity.
    + injection Heq as <- ->.
      exfalso. rewrite Forall_app in Hl2. destruct Hl2 as [_ Hl2].
      inversion Hl2; subst. contradiction.
  - inversion Hl1 as [|? ? Ha Hl1']; subst.
    destruct k1 as [|b k1]; cbn in Heq.
    + injection Heq as <- _. contradiction.
    + injection Heq as <- Heq.
      destruct (IH k1 Heq Hl1' Hl2 Hy) as [-> ->]. split; reflexivity.
Qed.

(** *** The merge of user suggestions and AI candidates *)

Lemma addUserSuggestions_calls (us : list SuggestedDish) :
  ∀ (i : nat) (acc : Merge) (w : W),
    omap marked_used (calls answer (addUserSuggestions i us acc) w) = sd_ID <$> us
    ∧ Forall (λ c, is_mark_or_log c = true)
        (calls answer (addUserSuggestions i us acc) w).
Proof.
  unfold calls.
  induction us as [|s us IH]; intros i [[o d] m] w.
  - cbn. split; constructor.
  - cbn [addUserSuggestions]. open_wrappers. step.
    destruct r as [e|]; cbn [is_err]; [step | step_skip];
      lazymatch goal with
      | |- context [trace _ (addUserSuggestions ?j us ?acc) ?w'] =>
          destruct (IH j acc w') as [IH1 IH2]
      end;
      cbn [fmap list_fmap ev_call projT1 omap list_omap marked_used] in *;
      (split; [f_equal; exact IH1 | repeat (constructor; [reflexivity|]); exact IH2]).
Qed.

(** The user loop writes the suggestions' names into consecutive slots. *)
Lemma addUserSuggestions_options (us : list SuggestedDish) :
  ∀ (i : nat) (o d : list string) (m : string) (w : W),
    (i + length us ≤ length o)%nat →
    (result answer (addUserSuggestions i us (o, d, m)) w).1.1
    = (take i o ++ (sd_Name <$> us) ++ drop (i + length us) o)%list.
Proof.
  induction us as [|s us IH]; intros i o d m w Hlen.
  - cbn. rewrite Nat.add_0_r, take_drop. reflexivity.
  - cbn [addUserSuggestions]. open_wrappers. step.
    cbn [length] in Hlen.
    destruct r as [e|]; cbn [is_err]; [step | step_skip];
      (rewrite IH by (rewrite length_insert; lia));
      (rewrite drop_insert_lt by lia);
      (rewrite (take_S_r _ _ (sd_Name s))
         by (apply list_lookup_insert_eq; lia));
      (rewrite take_insert_ge by lia);
      cbn [fmap list_fmap length];
      rewrite <- app_assoc; cbn [app];
      (replace (S i + length us)%nat with (i + S (length us))%nat by lia);
      reflexivity.
Qed.

(** The AI loop writes the candidates' names into consecutive slots after
    the user suggestions. *)
Lemma addAISuggestions_options (ai : list dict) :
  ∀ (n i : nat) (o d : list string) (m : string),
    (n + i + length ai ≤ length o)%nat →
    (addAISuggestions n i ai (o, d, m)).1.1
    = (take (n + i) o ++ ((λ s, get_string s "name") <$> ai)
         ++ drop (n + i + length ai) o)%list.
Proof.
  induction ai as [|s ai IH]; intros n i o d m Hlen.
  - cbn. rewrite Nat.add_0_r, take_drop. reflexivity.
  - cbn [addAISuggestions]. cbv zeta. cbn [length] in Hlen.
    rewrite IH by (rewrite length_insert; lia).
    rewrite drop_insert_lt by lia.
    replace (n + S i)%nat with (S (n + i)) by lia.
    rewrite (take_S_r _ _ (get_string s "name"))
      by (apply list_lookup_insert_eq; lia).
    rewrite take_insert_ge by lia.
    cbn [fmap list_fmap length].
    rewrite <- app_assoc. cbn [app].
    replace (S (n + i) + length ai)%nat with (n + i + S (length ai))%nat by lia.
    reflexivity.
Qed.

(** The merged option list: the names of the user suggestions, then the
    names of the AI candidates. *)
Lemma merged_options (us : list SuggestedDish) (ai : list dict)
    (d : list string) (m : string) (w : W) :
  (addAISuggestions (length us) 0 ai
     (result answer
        (addUserSuggestions 0 us (replicate (length ai + length us) "", d, m)) w)).1.1
  = ((sd_Name <$> us) ++ ((λ s, get_string s "name") <$> ai))%list.
Proof.
  pose proof (addUserSuggestions_options us 0
                (replicate (length ai + length us) "") d m w) as Hus.
  rewrite length_replicate in Hus. specialize (Hus ltac:(lia)).
  destruct (result answer _ w) as [[o' d'] m'] eqn:Hres.
  cbn [fst] in Hus. subst o'.
  rewrite addAISuggestions_options.
  - rewrite take_0, Nat.add_0_r, Nat.add_0_l. cbn [app].
    rewrite take_app_length' by (rewrite length_fmap; reflexivity).
    rewrite drop_app_ge by (rewrite length_fmap; lia).
    rewrite drop_ge
      by (rewrite length_drop, length_replicate, length_fmap; lia).
    rewrite app_nil_r. reflexivity.
  - rewrite take_0, Nat.add_0_l. cbn [app].
    rewrite length_app, length_fmap, length_drop, length_replicate. lia.
Qed.

Lemma len_eqb_0 {A : Type} (l : list A) :
  (len l =? 0) = match l with [] => true | _ => false end.
Proof. destruct l; reflexivity. Qed.

Lemma len_pos {A : Type} (l : list A) :
  (0 <? len l) = match l with [] => false | _ => true end.
Proof. destruct l; reflexivity. Qed.

(** The shape of the tail of the dinner handler once there is something to
    offer: the marks of the user suggestions, the edit of the processing
    message, the poll with the merged options, and an epilogue that neither
    creates a poll nor asks the Advisor. *)
Lemma dinnerPoll_calls (chat : Z) (pm : Message) (us : list SuggestedDish)
    (ai : list dict) (w : W) :
  us ≠ [] ∨ ai ≠ [] →
  ∃ marks text tail,
    calls answer (dinnerPoll chat pm us ai) w
    = (marks ++ ApiSend (NewEditMessageText chat (MessageID pm) text)
         :: ApiSend (SendPollConfig chat "What should we cook tonight?"
                       ((sd_Name <$> us) ++ ((λ s, get_string s "name") <$> ai)) false)
         :: tail)%list
    ∧ omap marked_used marks = sd_ID <$> us
    ∧ Forall (λ c, is_mark_or_log c = true) marks
    ∧ omap poll_options tail = []
    ∧ omap requested_count tail = [].
Proof.
  intros Hsome. unfold dinnerPoll.
  assert ((len ai =? 0) && (len us =? 0) = false) as ->.
  { rewrite !len_eqb_0. destruct Hsome; destruct us, ai; try reflexivity; congruence. }
  cbv zeta. rewrite calls_app.
  destruct (addUserSuggestions_calls us 0
              (replicate (length ai + length us) "",
               replicate (length ai + length us) "",
               "🍲 Here are some dinner suggestions based on your ingredients:"
                 +:+ NL +:+ NL) w) as [Hmarks Hlog].
  pose proof (merged_options us ai (replicate (length ai + length us) "")
                ("🍲 Here are some dinner suggestions based on your ingredients:"
                   +:+ NL +:+ NL) w) as Hopts.
  destruct (addAISuggestions (length us) 0 ai _) as [[o' d'] m'].
  cbn [fst] in Hopts. subst o'.
  generalize dependent (final answer
    (addUserSuggestions 0 us
       (replicate (length ai + length us) "", replicate (length ai + length us) "",
        "🍲 Here are some dinner suggestions based on your ingredients:" +:+ NL +:+ NL))
    w).
  intros w'.
  remember (calls answer (EditMessage chat (MessageID pm) m' ≫= _) w') as cs eqn:Hcs.
  revert Hcs. unfold calls at 1. open_wrappers. step.
  cbn [NewPoll set_IsAnonymous]. step. destruct r0 as [pollMsg [e|]]; cbn [is_err].
  - do 3 step. rewrite trace_skip. cbn [fmap list_fmap ev_call projT1]. intros ->.
    eexists _, m', _. split; [reflexivity|]. repeat split; assumption || reflexivity.
  - step. destruct r0 as [e|]; cbn [is_err]; [step | step_skip]; step;
      rewrite trace_skip; cbn [fmap list_fmap ev_call projT1]; intros ->;
      (eexists _, m', _; split; [reflexivity|];
       repeat split; assumption || reflexivity).
Qed.

(** With nothing to offer, no poll: the processing message is edited and the
    handler returns. *)
Lemma dinnerPoll_nothing (chat : Z) (pm : Message) (w : W) :
  ∃ text,
    calls answer (dinnerPoll chat pm [] []) w
    = [ApiSend (NewEditMessageText chat (MessageID pm) text)].
Proof.
  unfold calls, dinnerPoll. rewrite !len_eqb_0. cbn [andb].
  open_wrappers. step. rewrite trace_skip. eexists. reflexivity.
Qed.

(** The part of a list of events in front of a known tail. *)
Ltac prefix_of l tl :=
  lazymatch l with
  | tl => constr:(@nil Event)
  | ?x :: ?l' => let p := prefix_of l' tl in constr:(x :: p)
  end.

(** Closes a case of [dinner_calls] that ends in [dinnerPoll]. *)
Ltac dinner_tail :=
  lazymatch goal with
  | |- context [trace ?ans (dinnerPoll ?c ?pm [] []) ?w'] =>
      let text := fresh "text" in
      let Hcs := fresh "Hcs" in
      destruct (dinnerPoll_nothing c pm w') as [text Hcs];
      unfold calls in Hcs; left; rewrite !fmap_cons, Hcs; split; reflexivity
  | |- context [trace ?ans (dinnerPoll ?c ?pm ?us ?ai) ?w'] =>
      let marks := fresh "marks" in
      let text := fresh "text" in
      let tail := fresh "tail" in
      let Hcs := fresh "Hcs" in
      destruct (dinnerPoll_calls c pm us ai w')
        as (marks & text & tail & Hcs & ? & ? & ? & _);
      [first [left; discriminate | right; discriminate] |];
      unfold calls in Hcs; right;
      lazymatch goal with
      | |- context [ev_call <$> ?l = _] =>
          let p := prefix_of l (trace ans (dinnerPoll c pm us ai) w') in
          exists (ev_call <$> p), marks, (MessageID pm, text), tail
      end;
      rewrite !fmap_cons, Hcs;
      repeat split; try assumption; try reflexivity;
      first [left; discriminate | right; discriminate]
  end.

(** Every run of the dinner handler either stops before the merge (no
    suggestion is marked, no poll is created), or goes through it: some calls
    that neither mark nor poll, the marks of the unused suggestions, the edit
    of the processing message, the poll on the merged options, an epilogue
    without a poll. *)
Lemma dinner_calls (message : Message) (w : W) :
  let t := trace answer (dinner cfg message) w in
  let cs := ev_call <$> t in
  (omap poll_options cs = [] ∧ omap marked_used cs = [])
  ∨ ∃ pre marks edit tail,
      cs = (pre ++ marks
              ++ ApiSend (NewEditMessageText (ChatID message) edit.1 edit.2)
              :: ApiSend (SendPollConfig (ChatID message) "What should we cook tonight?"
                            ((sd_Name <$> unused_in t)
                               ++ ((λ s, get_string s "name") <$> candidates_in t)) false)
              :: tail)%list
      ∧ (unused_in t ≠ [] ∨ candidates_in t ≠ [])
      ∧ omap poll_options pre = []
      ∧ omap marked_used marks = sd_ID <$> unused_in t
      ∧ Forall (λ c, is_mark_or_log c = true) marks
      ∧ omap poll_options tail = [].
Proof.
  intros t cs. subst cs t. unfold dinner. open_wrappers.
  step as [ings [e|]]; cbn [is_err].
  { do 3 step. rewrite trace_skip. left. split; reflexivity. }
  rewrite len_eqb_0. destruct ings as [|i ings].
  { step. rewrite trace_skip. left. split; reflexivity. }
  step as [pm pmerr].
  step as [us [e|]]; cbn [is_err]; [step | step_skip];
    step as [ai [e'|]]; cbn [is_err].
  - step. rewrite len_eqb_0. step. rewrite trace_skip. left. split; reflexivity.
  - destruct ai as [|a ai]; dinner_tail.
  - step. rewrite len_eqb_0. destruct us as [|u us]; [|dinner_tail].
    step. rewrite trace_skip. left. split; reflexivity.
  - destruct us as [|u us], ai as [|a ai]; dinner_tail.
Qed.

Lemma mark_or_log_no_poll (l : list Call) :
  Forall (λ c, is_mark_or_log c = true) l → Forall (λ c, poll_options c = None) l.
Proof.
  intros Hl. eapply Forall_impl; [exact Hl|].
  intros [] H; try discriminate H; reflexivity.
Qed.

Lemma mark_or_log_no_request (l : list Call) :
  Forall (λ c, is_mark_or_log c = true) l → Forall (λ c, requested_count c = None) l.
Proof.
  intros Hl. eapply Forall_impl; [exact Hl|].
  intros [] H; try discriminate H; reflexivity.
Qed.

Lemma marked_used_elem (id : string) (l : list Call) :
  id ∈ omap marked_used l → MarkAsUsed id ∈ l.
Proof.
  rewrite list_elem_of_omap. intros (c & Hc & Hid).
  destruct c; try discriminate Hid. injection Hid as ->. exact Hc.
Qed.

(** The polls a run of the dinner handler creates: none, or one on the
    merged options, of which there is at least one. *)
Lemma dinner_polls (message : Message) (w : W) :
  let t := trace answer (dinner cfg message) w in
  omap poll_options (ev_call <$> t) = []
  ∨ (omap poll_options (ev_call <$> t)
       = [((sd_Name <$> unused_in t)
             ++ ((λ s, get_string s "name") <$> candidates_in t))%list]
     ∧ (unused_in t ≠ [] ∨ candidates_in t ≠ [])).
Proof.
  intros t.
  destruct (dinner_calls message w)
    as [[Hnone _] | (pre & marks & text & tail & Hcs & Hsome & Hpre & _ & Hlog & Htail)].
  - left. exact Hnone.
  - right. fold t in Hcs, Hsome. split; [|exact Hsome].
    rewrite Hcs, !omap_app, Hpre. cbn [omap list_omap poll_options NewEditMessageText].
    rewrite (omap_none_Forall _ marks (mark_or_log_no_poll _ Hlog)).
    cbn [app]. f_equal. exact Htail.
Qed.

Lemma dinnerPoll_no_request (chat : Z) (pm : Message) (us : list SuggestedDish)
    (ai : list dict) (w : W) :
  omap requested_count (calls answer (dinnerPoll chat pm us ai) w) = [].
Proof.
  destruct us as [|u us], ai as [|a ai];
    [ destruct (dinnerPoll_nothing chat pm w) as [text ->]; reflexivity | | | ];
    lazymatch goal with
    | |- context [dinnerPoll _ _ ?us' ?ai'] =>
        destruct (dinnerPoll_calls chat pm us' ai' w)
          as (marks & text & tail & -> & _ & Hlog & _ & Htail);
          [first [left; discriminate | right; discriminate] |]
    end;
    rewrite omap_app, (omap_none_Forall _ marks (mark_or_log_no_request _ Hlog));
    cbn [app omap list_omap requested_count NewEditMessageText]; exact Htail.
Qed.

(** Closes a case of [dinner_requests] that ends in [dinnerPoll]. *)
Ltac no_more_requests :=
  rewrite !fmap_cons;
  lazymatch goal with
  | |- context [trace ?ans (dinnerPoll ?c ?pm' ?us' ?ai') ?w'] =>
      change (ev_call <$> trace ans (dinnerPoll c pm' us' ai') w')
        with (calls ans (dinnerPoll c pm' us' ai') w');
      cbn [omap list_omap ev_call projT1 requested_count NewMessage];
      rewrite (dinnerPoll_no_request c pm' us' ai' w')
  end;
  reflexivity.

(** With a non-empty fridge the Advisor is asked once, for the number of
    candidates [aiSuggestionCount] gives for the unused suggestions. *)
Lemma dinner_requests (message : Message) (w : W) (ings : list Ingredient) :
  (answer (ListIngredients (ChatID message)) w).1 = (ings, None) → ings ≠ [] →
  let t := trace answer (dinner cfg message) w in
  omap requested_count (ev_call <$> t) = [aiSuggestionCount (unused_in t)].
Proof.
  intros Hlist Hne t. subst t. unfold dinner. open_wrappers. step_keep.
  destruct (answer (ListIngredients (ChatID message)) w) as [[ings' err] w1].
  cbn [fst snd] in *. injection Hlist as -> ->. cbn [is_err].
  rewrite len_eqb_0. destruct ings as [|i ings]; [congruence|].
  step as [pm pmerr].
  step as [us [e|]]; cbn [is_err]; [step | step_skip];
    step as [ai [e'|]]; cbn [is_err].
  - step. rewrite len_eqb_0. step. rewrite trace_skip. reflexivity.
  - no_more_requests.
  - step. rewrite len_eqb_0. destruct us as [|u us]; [|no_more_requests].
    step. rewrite trace_skip. reflexivity.
  - no_more_requests.
Qed.

Lemma aiSuggestionCount_spec (us : list SuggestedDish) :
  aiSuggestionCount us = if decide (us = []) then 4 else Z.max 2 (4 - len us).
Proof.
  unfold aiSuggestionCount. cbv zeta. rewrite len_pos.
  destruct us as [|u us]; [reflexivity|].
  rewrite decide_False by discriminate.
  destruct (4 - len (u :: us) <? 2) eqn:Hlt.
  - apply Z.ltb_lt in Hlt. lia.
  - apply Z.ltb_ge in Hlt. lia.
Qed.

(** *** The dinner poll *)

(** C2: with a non-empty fridge the dinner handler asks the Advisor exactly
    once, for [max(2, 4 - len(unused))] candidates when the pool returned at
    least one unused suggestion and for [4] when it returned none (or could
    not be read); with exactly one unused suggestion it asks for [3]. *)
Theorem dinner_ai_count (message : Message) (w : W) (ings : list Ingredient) :
  (answer (ListIngredients (ChatID message)) w).1 = (ings, None) → ings ≠ [] →
  let t := trace answer (dinner cfg message) w in
  let unused := unused_in t in
  ∃ count,
    omap requested_count (ev_call <$> t) = [count]
    ∧ (unused ≠ [] → count = Z.max 2 (4 - len unused))
    ∧ (unused = [] → count = 4)
    ∧ (length unused = 1%nat → count = 3).
Proof.
  intros Hlist Hne t unused.
  exists (aiSuggestionCount unused). split.
  - exact (dinner_requests message w ings Hlist Hne).
  - rewrite aiSuggestionCount_spec. repeat split.
    + intros Hsome. rewrite decide_False by exact Hsome. reflexivity.
    + intros ->. reflexivity.
    + intros Hone. destruct unused as [|u [|u' us]]; try discriminate Hone. reflexivity.
Qed.

(** C3, as the code has it: a poll the dinner handler creates is never
    empty; it has one option per unused suggestion and one per AI candidate
    of the run.  No lower bound of two and no ceiling is enforced. *)
Theorem poll_options_nonempty (message : Message) (w : W) (options : list string) :
  let t := trace answer (dinner cfg message) w in
  options ∈ omap poll_options (ev_call <$> t) →
  options ≠ []
  ∧ length options = (length (unused_in t) + length (candidates_in t))%nat.
Proof.
  intros t Hin.
  destruct (dinner_polls message w) as [Hnone | [Hone Hsome]]; fold t in Hnone || fold t in Hone, Hsome.
  - rewrite Hnone in Hin. inversion Hin.
  - rewrite Hone in Hin. apply list_elem_of_singleton in Hin. subst options.
    split.
    + intros Hnil. apply app_eq_nil in Hnil as [Hu Ha].
      apply fmap_nil_inv in Hu. apply fmap_nil_inv in Ha.
      destruct Hsome; contradiction.
    + rewrite length_app, !length_fmap. reflexivity.
Qed.

(** C4: the options of a poll the dinner handler creates are the names of
    the unused suggestions, in the order the pool returned them, followed by
    the names of the AI candidates, in the Advisor's order. *)
Theorem poll_user_suggestions_first (message : Message) (w : W) (options : list string) :
  let t := trace answer (dinner cfg message) w in
  options ∈ omap poll_options (ev_call <$> t) →
  options = ((sd_Name <$> unused_in t)
               ++ ((λ s, get_string s "name") <$> candidates_in t))%list.
Proof.
  intros t Hin.
  destruct (dinner_polls message w) as [Hnone | [Hone _]]; fold t in Hnone || fold t in Hone.
  - rewrite Hnone in Hin. inversion Hin.
  - rewrite Hone in Hin. apply list_elem_of_singleton in Hin. exact Hin.
Qed.

(** C5: in a run of the dinner handler that gets to create a poll, every
    unused suggestion of the run has had [MarkAsUsed] called on it before
    the poll is sent, whatever the transport then answers. *)
Theorem marks_before_poll (message : Message) (w : W)
    (before after : list Call) (c : Call) :
  let t := trace answer (dinner cfg message) w in
  ev_call <$> t = (before ++ c :: after)%list →
  is_Some (poll_options c) →
  ∀ s, s ∈ unused_in t → MarkAsUsed (sd_ID s) ∈ before.
Proof.
  intros t Hsplit Hpoll s Hs.
  destruct (dinner_calls message w)
    as [[Hnone _] | (pre & marks & text & tail & Hcs & _ & Hpre & Hmarks & Hlog & Htail)];
    fold t in Hnone || fold t in Hcs, Hmarks.
  - rewrite Hsplit, omap_app in Hnone. cbn [omap list_omap] in Hnone.
    destruct Hpoll as [o Ho]. rewrite Ho in Hnone.
    apply app_eq_nil in Hnone as [_ Hnone]. discriminate Hnone.
  - rewrite Hcs in Hsplit.
    change (pre ++ marks ++ ?e :: ?p :: tail)%list
      with (pre ++ marks ++ [e] ++ p :: tail)%list in Hsplit.
    rewrite !app_assoc in Hsplit.
    apply (split_at_unique (λ c, is_Some (poll_options c))) in Hsplit as [-> _].
    + rewrite !elem_of_app. left. right.
      apply marked_used_elem. rewrite Hmarks.
      apply list_elem_of_fmap. exists s. split; [reflexivity | exact Hs].
    + rewrite !Forall_app. repeat split.
      * eapply Forall_impl; [exact (omap_nil_Forall _ _ Hpre)|].
        intros x Hx [o Ho]. congruence.
      * eapply Forall_impl; [exact (mark_or_log_no_poll _ Hlog)|].
        intros x Hx [o Ho]. congruence.
      * constructor; [|constructor]. intros [o Ho]. discriminate Ho.
    + eapply Forall_impl; [exact (omap_nil_Forall _ _ Htail)|].
      intros x Hx [o Ho]. congruence.
    + exact Hpoll.
Qed.

(** *** Ingredient ingestion *)

Lemma addIngredients_trace (chat : Z) (names : list string) :
  ∀ w : W,
    omap upserted (calls answer (addIngredients chat names) w)
    = (λ name, (chat, name, "")) <$> names
    ∧ omap extraction_reply (trace answer (addIngredients chat names) w) = [].
Proof.
  unfold calls.
  induction names as [|name names IH]; intros w.
  - split; reflexivity.
  - cbn [addIngredients]. open_wrappers. step as [e|]; cbn [is_err];
      [step | step_skip];
      lazymatch goal with
      | |- context [trace _ (addIngredients chat names) ?w'] =>
          destruct (IH w') as [IH1 IH2]
      end;
      cbn [fmap list_fmap ev_call projT1 omap list_omap upserted extraction_reply] in *;
      (split; [f_equal; exact IH1 | exact IH2]).
Qed.

Lemma addIngredients_quiet (chat : Z) (names : list string) :
  ∀ w : W,
    omap advisor_call (calls answer (addIngredients chat names) w) = []
    ∧ omap file_requested (calls answer (addIngredients chat names) w) = []
    ∧ omap file_reply (trace answer (addIngredients chat names) w) = [].
Proof.
  unfold calls.
  induction names as [|name names IH]; intros w.
  - repeat split; reflexivity.
  - cbn [addIngredients]. open_wrappers. step as [e|]; cbn [is_err];
      [step | step_skip];
      lazymatch goal with
      | |- context [trace _ (addIngredients chat names) ?w'] =>
          destruct (IH w') as (IH1 & IH2 & IH3)
      end;
      cbn [fmap list_fmap ev_call projT1 omap list_omap advisor_call
             is_advisor_call file_requested file_reply] in *;
      (split; [exact IH1 | split; [exact IH2 | exact IH3]]).
Qed.

(** What the upsert loop leaves in a run, for each way of looking at it. *)
Ltac forget_adds :=
  lazymatch goal with
  | |- context [trace answer (addIngredients ?chat ?l) ?wx] =>
      destruct (addIngredients_trace chat l wx) as [Hups Hext];
      destruct (addIngredients_quiet chat l wx) as (Hadv & Hfile & Hres);
      unfold calls in Hups, Hadv, Hfile;
      generalize dependent (trace answer (addIngredients chat l) wx);
      intros added Hups Hext Hadv Hfile Hres;
      generalize (final answer (addIngredients chat l) wx); intros wa
  end.

Ltac decide_states :=
  repeat first
    [ rewrite bool_decide_eq_true_2 by reflexivity
    | rewrite bool_decide_eq_false_2 by discriminate ];
  cbn [orb].

(** A text while the chat is adding ingredients. *)
Lemma text_ingestion_policy (update : Update) (message : Message) (w : W) :
  upd_Message update = Some message →
  IsCommand message = false → Photo message = [] → Text message ≠ "" →
  (answer (GetState (ChatID message)) w).1 = StateAddingIngredients →
  ingestion_policy (ChatID message) (ParseIngredientsFromText (Text message))
    textApology (trace answer (defaultHandler cfg update) w).
Proof.
  intros Hmsg Hcmd Hphoto Htext Hstate.
  unfold defaultHandler. rewrite Hmsg, Hphoto, Hcmd. cbv zeta.
  apply String.eqb_neq in Htext. rewrite Htext.
  rewrite len_pos. cbn [andb negb].
  revert Hstate. step_keep.
  destruct (answer (GetState (ChatID message)) w) as [st w1]. cbn [fst snd].
  intros ->. decide_states.
  step as [names [e|]]; cbn [is_err].
  { open_wrappers. step. step. rewrite trace_skip.
    split; [reflexivity|]. exists names, (Some e).
    split; [reflexivity|]. split; reflexivity. }
  rewrite len_eqb_0. destruct names as [|name names].
  { open_wrappers. step. rewrite trace_skip.
    split; [reflexivity|]. exists [], None.
    split; [reflexivity|]. split; reflexivity. }
  rewrite trace_bind. forget_adds.
  open_wrappers. step. step. rewrite trace_skip.
  unfold ingestion_policy. cbv zeta.
  rewrite !fmap_cons, fmap_app, !fmap_cons.
  cbn [omap list_omap ev_call projT1 advisor_call is_advisor_call upserted
         extraction_reply NewMessage].
  rewrite !omap_app, Hups, Hext, Hadv.
  cbn [omap list_omap ev_call projT1 advisor_call is_advisor_call upserted
         extraction_reply app].
  split; [reflexivity|]. exists (name :: names), None.
  split; [reflexivity|]. cbn [is_err]. rewrite app_nil_r. reflexivity.
Qed.

(** The photo block, followed by a keyboard prompt. *)
Lemma ingestPhoto_policy (chat : Z) (photo : PhotoSize) (prompt : Chattable) (w : W) :
  photo_ingestion_policy (BotToken cfg) chat photo
    (trace answer (ingestPhoto cfg chat photo (Send prompt;; skip)) w).
Proof.
  unfold ingestPhoto, GetFileURL. open_wrappers.
  step as [pm pmerr]. step as [file [e|]]; cbn [is_err]; step_ret; cbn [is_err].
  { step. step. rewrite trace_skip.
    split; [reflexivity|]. exists file, (Some e).
    split; [reflexivity|]. repeat split; reflexivity. }
  step as [names [e|]]; cbn [is_err].
  { step. step. rewrite trace_skip.
    split; [reflexivity|]. exists file, None.
    split; [reflexivity|]. cbn [is_err].
    split; [reflexivity|]. exists names, (Some e).
    split; [reflexivity|]. split; reflexivity. }
  rewrite len_eqb_0. destruct names as [|name names].
  { step. rewrite trace_skip.
    split; [reflexivity|]. exists file, None.
    split; [reflexivity|]. cbn [is_err].
    split; [reflexivity|]. exists [], None.
    split; [reflexivity|]. split; reflexivity. }
  rewrite trace_bind. forget_adds.
  step. step. rewrite trace_skip.
  unfold photo_ingestion_policy, ingestion_policy. cbv zeta.
  rewrite !fmap_cons, fmap_app, !fmap_cons.
  cbn [omap list_omap ev_call projT1 advisor_call is_advisor_call upserted
         extraction_reply file_requested file_reply NewMessage NewEditMessageText].
  rewrite !omap_app, Hups, Hext, Hadv, Hfile, Hres.
  cbn [omap list_omap ev_call projT1 advisor_call is_advisor_call upserted
         extraction_reply file_requested file_reply app].
  split; [reflexivity|]. exists file, None.
  split; [reflexivity|]. cbn [is_err].
  split; [reflexivity|]. exists (name :: names), None.
  split; [reflexivity|]. cbn [is_err]. rewrite app_nil_r. reflexivity.
Qed.

Lemma last_cons_Some {A : Type} (x y : A) (l : list A) :
  last l = Some y → last (x :: l) = Some y.
Proof. destruct l; [discriminate | intros H; exact H]. Qed.

(** A call in front of the photo block that is none of those the policy
    speaks of. *)
Lemma photo_ingestion_policy_cons (token : string) (chat : Z) (photo : PhotoSize)
    (e : Event) (t : list Event) :
  file_requested (ev_call e) = None → file_reply e = None →
  advisor_call (ev_call e) = None → extraction_reply e = None →
  upserted (ev_call e) = None →
  photo_ingestion_policy token chat photo t →
  photo_ingestion_policy token chat photo (e :: t).
Proof.
  intros H1 H2 H3 H4 H5 [Hfile (file & err & Hres & Hrest)].
  unfold photo_ingestion_policy, ingestion_policy in *. cbv zeta in *.
  rewrite fmap_cons. cbn [omap list_omap]. rewrite H1, H2, H3, H4, H5.
  split; [exact Hfile|]. exists file, err. split; [exact Hres|].
  destruct (is_err err).
  - destruct Hrest as (Hadv & Hups & Hlast).
    split; [exact Hadv|]. split; [exact Hups|]. apply last_cons_Some, Hlast.
  - destruct Hrest as [Hadv (names & err' & Hext & Hrest)].
    split; [exact Hadv|]. exists names, err'. split; [exact Hext|].
    destruct (is_err err').
    + destruct Hrest as [Hups Hlast]. split; [exact Hups|].
      apply last_cons_Some, Hlast.
    + destruct names as [|name names]; [|exact Hrest].
      destruct Hrest as [Hups Hlast]. split; [exact Hups|].
      apply last_cons_Some, Hlast.
Qed.

(** A photo without a command while the chat is adding ingredients or
    photos. *)
Lemma photo_message_policy (update : Update) (message : Message)
    (photo : PhotoSize) (w : W) :
  upd_Message update = Some message →
  IsCommand message = false → last (Photo message) = Some photo →
  (answer (GetState (ChatID message)) w).1 = StateAddingIngredients
  ∨ (answer (GetState (ChatID message)) w).1 = StateAddingPhotos →
  photo_ingestion_policy (BotToken cfg) (ChatID message) photo
    (trace answer (defaultHandler cfg update) w).
Proof.
  intros Hmsg Hcmd Hlast Hstate.
  unfold defaultHandler. rewrite Hmsg, Hcmd. cbv zeta.
  assert ((0 <? len (Photo message)) = true) as ->.
  { destruct (Photo message); [discriminate Hlast | reflexivity]. }
  assert (largestPhoto (Photo message) = photo) as ->.
  { unfold largestPhoto. rewrite Hlast. reflexivity. }
  cbn [andb negb]. revert Hstate. step_keep.
  destruct (answer (GetState (ChatID message)) w) as [st w1]. cbn [fst snd].
  intros [-> | ->]; decide_states;
    (apply photo_ingestion_policy_cons; [reflexivity..|]);
    apply ingestPhoto_policy.
Qed.

(** The photo command with a photo attached. *)
Lemma add_photo_policy (message : Message) (photo : PhotoSize) (w : W) :
  last (Photo message) = Some photo →
  photo_ingestion_policy (BotToken cfg) (ChatID message) photo
    (trace answer (add_photo cfg message) w).
Proof.
  intros Hlast. unfold add_photo. cbv zeta.
  assert ((0 <? len (Photo message)) = true) as ->.
  { destruct (Photo message); [discriminate Hlast | reflexivity]. }
  assert (largestPhoto (Photo message) = photo) as ->.
  { unfold largestPhoto. rewrite Hlast. reflexivity. }
  step.
  (apply photo_ingestion_policy_cons; [reflexivity..|]).
  apply ingestPhoto_policy.
Qed.

(** C8: every ingestion event reaches the Advisor and is then treated by the
    failure policy.  A text that is no command, received while the chat is
    adding ingredients, is handed to the Advisor, once.  A photo that is no
    command, received while the chat is adding ingredients or photos, and the
    last photo of a photo command are resolved to a file and, when that
    worked, the file's link is handed to the Advisor, once.  In each case:
    when the Advisor fails or returns no name, nothing is upserted and the run
    ends with the apology to the chat; when it returns names, every one of
    them is upserted, in order, whatever the single upserts return. *)
Theorem ingestion_failure_policy (w : W) (message : Message) :
  let chat := ChatID message in
  let mode := (answer (GetState chat) w).1 in
  (∀ update,
     upd_Message update = Some message →
     IsCommand message = false → Photo message = [] → Text message ≠ "" →
     mode = StateAddingIngredients →
     ingestion_policy chat (ParseIngredientsFromText (Text message)) textApology
       (trace answer (defaultHandler cfg update) w))
  ∧ (∀ update photo,
       upd_Message update = Some message →
       IsCommand message = false → last (Photo message) = Some photo →
       mode = StateAddingIngredients ∨ mode = StateAddingPhotos →
       photo_ingestion_policy (BotToken cfg) chat photo
         (trace answer (defaultHandler cfg update) w))
  ∧ (∀ photo,
       last (Photo message) = Some photo →
       photo_ingestion_policy (BotToken cfg) chat photo
         (trace answer (add_photo cfg message) w)).
Proof.
  intros chat mode. subst chat mode. split; [|split].
  - intros update. apply text_ingestion_policy.
  - intros update photo. apply photo_message_policy.
  - intros photo. apply add_photo_policy.
Qed.

(** *** Self-suggestion *)

(** C1, as the code has it: a suggest command with a dish name announces
    the lookup and asks the Advisor about the dish, once.  When that call
    fails, nothing is handed to the Suggestion Pool: the error is logged, the
    message that announced the lookup (the one the transport returned for
    it) is edited into the report of the failure, and the run ends.  When it
    succeeds, exactly one dish is handed to the pool, for this chat and
    proposer, under the Advisor's name for it, or under the user's own words
    when the Advisor gave no name. *)
Theorem suggest_persists_after_enrichment (message : Message) (w : W) :
  CommandArguments message ≠ "" →
  let t := trace answer (suggest message) w in
  let cs := ev_call <$> t in
  let chat := ChatID message in
  let args := CommandArguments message in
  let username :=
    if String.eqb (UserName (From message)) "" then FirstName (From message)
    else UserName (From message) in
  let lookup :=
    ApiSend (NewMessage chat ("🧐 Looking up information about '" +:+ args
                                +:+ "'... This might take a moment.")) in
  ∃ processingMsg sendErr dishInfo err,
    head t = Some (event lookup (processingMsg, sendErr))
    ∧ omap advisor_call cs = [GetDishInfo args]
    ∧ omap dish_info_reply t = [(dishInfo, err)]
    ∧ if is_err err
      then omap added_suggestion cs = []
           ∧ cs = [lookup;
                   GetDishInfo args;
                   LogError ("Failed to get dish info: " +:+ err_text err);
                   ApiSend (NewEditMessageText chat (MessageID processingMsg)
                              ("😢 Sorry, I couldn't find information about '" +:+ args
                                 +:+ "'. Please try again with a different dish."))]
      else omap added_suggestion cs
           = [(chat, fmt_d (user_ID (From message)), username,
               if String.eqb (get_string dishInfo "name") "" then args
               else get_string dishInfo "name",
               get_string dishInfo "cuisine", get_string dishInfo "description")].
Proof.
  intros Hargs t cs chat args username lookup. subst t cs chat args username lookup.
  unfold suggest. cbv zeta.
  apply String.eqb_neq in Hargs. rewrite Hargs. cbn [negb].
  open_wrappers. step as [pm pmerr]. step as [dishInfo [e|]]; cbn [is_err].
  { step. step. rewrite trace_skip.
    exists pm, pmerr, dishInfo, (Some e).
    split; [reflexivity|]. split; [reflexivity|]. split; [reflexivity|].
    cbn [is_err]. split; reflexivity. }
  step as [fridgeIngredients [e|]]; cbn [is_err]; [step | step_skip];
    (step as [suggestion [e'|]]); cbn [is_err];
    repeat step; rewrite trace_skip;
    (exists pm, pmerr, dishInfo, None;
     split; [reflexivity|]; split; [reflexivity|]; split; reflexivity).
Qed.

(** *** Button presses *)

(** Each of the five registered callback handlers acknowledges the press it
    handles, once. *)
Lemma registered_handler_acknowledges (tag : string) (handler : CallbackHandler)
    (callback : CallbackQuery) (w : W) :
  callbackHandlers !! tag = Some handler →
  omap acknowledged (calls answer (handler callback) w) = [cb_ID callback].
Proof.
  unfold callbackHandlers, calls.
  rewrite !lookup_insert_Some, lookup_empty.
  intros [[_ <-] | [_ [[_ <-] | [_ [[_ <-] | [_ [[_ <-] | [_ [[_ <-] | [_ H]]]]]]]]]];
    [ | | | | | discriminate H ].
  - unfold cancel_adding_photos. open_wrappers. do 3 step. rewrite trace_skip.
    reflexivity.
  - unfold done_adding_photos. open_wrappers. do 3 step.
    step as [ings [e|]]; cbn [is_err].
    + step. rewrite trace_skip. reflexivity.
    + rewrite len_eqb_0. destruct ings; repeat step; rewrite trace_skip; reflexivity.
  - unfold show_fridge_callback. open_wrappers. do 2 step.
    step as [ings [e|]]; cbn [is_err].
    + do 2 step. rewrite trace_skip. reflexivity.
    + rewrite len_eqb_0. destruct ings; repeat step; rewrite trace_skip; reflexivity.
  - unfold add_more. open_wrappers. do 2 step. rewrite trace_skip. reflexivity.
  - unfold done_adding. open_wrappers. do 3 step. rewrite trace_skip. reflexivity.
Qed.

(** The [range] loop runs the first handler, in the order the map is
    visited, whose tag is a prefix of the data. *)
Lemma rangeCallbacks_acknowledges (logger : string)
    (order : list (string * CallbackHandler)) (callback : CallbackQuery) :
  (∀ tag handler w, (tag, handler) ∈ order →
     omap acknowledged (calls answer (handler callback) w) = [cb_ID callback]) →
  (∃ tag handler, (tag, handler) ∈ order ∧ has_prefix (Data callback) tag = true) →
  ∀ w, omap acknowledged (calls answer (rangeCallbacks logger order callback) w)
       = [cb_ID callback].
Proof.
  unfold calls.
  induction order as [|[tag handler] order IH]; intros Hack (t & h & Hin & Hpre) w.
  - inversion Hin.
  - cbn [rangeCallbacks]. destruct (has_prefix (Data callback) tag) eqn:Htag.
    + step. cbn [fmap list_fmap omap list_omap ev_call projT1 acknowledged].
      apply (Hack tag handler). left.
    + apply IH.
      * intros t' h' w' Hin'. apply (Hack t' h'). right. exact Hin'.
      * exists t, h. split; [|exact Hpre].
        apply elem_of_cons in Hin as [Heq | Hin]; [|exact Hin].
        injection Heq as -> ->. congruence.
Qed.

Lemma rangeCallbacks_unmatched (logger : string)
    (order : list (string * CallbackHandler)) (callback : CallbackQuery) (w : W) :
  (∀ tag handler, (tag, handler) ∈ order → has_prefix (Data callback) tag = false) →
  calls answer (rangeCallbacks logger order callback) w = [].
Proof.
  induction order as [|[tag handler] order IH]; intros Hnone.
  - reflexivity.
  - cbn [rangeCallbacks]. rewrite (Hnone tag handler) by left.
    apply IH. intros t h Hin. apply (Hnone t h). right. exact Hin.
Qed.

Lemma range_order_elem {V : Type} (m : gmap string V) (order : list (string * V))
    (tag : string) (v : V) :
  range_order m order → (tag, v) ∈ order ↔ m !! tag = Some v.
Proof.
  unfold range_order. intros ->. apply elem_of_map_to_list.
Qed.

(** C9, as the code has it: for an update that carries a button press and is
    not a handled command, when some registered tag is a prefix of the
    press's data the handler that runs acknowledges the press, once; when no
    registered tag is, the loop does nothing at all: no acknowledgement is
    sent. *)
Theorem callback_acknowledged_when_registered (w : W) (logger : string)
    (order : list (string * CallbackHandler)) (update : Update)
    (callback : CallbackQuery) :
  range_order callbackHandlers order →
  commandOf (commandHandlers cfg) update = None →
  upd_CallbackQuery update = Some callback →
  let cs := calls answer (handleUpdate logger (commandHandlers cfg) order
                            (Some (defaultHandler cfg)) update) w in
  ((∃ tag, tag ∈ dom callbackHandlers ∧ has_prefix (Data callback) tag = true) →
     omap acknowledged cs = [cb_ID callback])
  ∧ ((∀ tag, tag ∈ dom callbackHandlers → has_prefix (Data callback) tag = false) →
     cs = []).
Proof.
  intros Horder Hcmd Hcb cs. subst cs.
  unfold handleUpdate. rewrite Hcmd, Hcb. split.
  - intros (tag & Hdom & Hpre).
    apply elem_of_dom in Hdom as [handler Hh].
    apply rangeCallbacks_acknowledges.
    + intros t h w' Hin.
      apply (registered_handler_acknowledges t h).
      apply (range_order_elem _ _ _ _ Horder). exact Hin.
    + exists tag, handler. split; [|exact Hpre].
      apply (range_order_elem _ _ _ _ Horder). exact Hh.
  - intros Hnone. apply rangeCallbacks_unmatched.
    intros t h Hin. apply Hnone. apply elem_of_dom. exists h.
    apply (range_order_elem _ _ _ _ Horder). exact Hin.
Qed.

(** *** Fridge reset *)

(** C6: the fridge-reset command first asks the Ingredient Store to clear the
    chat's ingredients, whatever they are; only when that succeeded does it
    set the chat's mode to [StateAddingIngredients]; when the clear fails, no
    call that writes the mode is made. *)
Theorem sync_fridge_clears_before_mode (message : Message) (w : W) :
  let chat := ChatID message in
  let err := (answer (ResetFridge chat) w).1 in
  ∃ rest,
    calls answer (sync_fridge message) w = ResetFridge chat :: rest ∧
    if is_err err
    then omap mode_written rest = []
    else ∃ text,
        rest = [SetState chat StateAddingIngredients; ApiSend (NewMessage chat text)].
Proof.
  intros chat err. subst chat err.
  unfold calls, sync_fridge. open_wrappers. step.
  destruct r as [e|]; cbn [is_err].
  - do 3 step. rewrite trace_skip. cbn. eexists. split; [reflexivity|]. reflexivity.
  - do 2 step. rewrite trace_skip. cbn. eexists. split; [reflexivity|].
    eexists. reflexivity.
Qed.

(** *** Dinner with an empty fridge *)

(** C7: when the Ingredient Store lists no ingredient for the chat, the dinner
    command sends the "fridge is empty" message and does nothing else: no
    poll is created and the Advisor is not called. *)
Theorem dinner_empty_fridge (message : Message) (w : W) :
  (answer (ListIngredients (ChatID message)) w).1 = ([], None) →
  let cs := calls answer (dinner cfg message) w in
  cs = [ListIngredients (ChatID message);
        ApiSend (NewMessage (ChatID message) "😢 Your fridge is empty! Please add some ingredients with /sync_fridge or /add_photo before I can suggest dinner options.")]
  ∧ omap poll_options cs = []
  ∧ Forall (λ c, is_advisor_call c = false) cs.
Proof.
  intros Hempty cs. subst cs.
  unfold calls, dinner. open_wrappers. step_keep.
  destruct (answer (ListIngredients (ChatID message)) w) as [[ings err] w1].
  cbn [fst snd] in *. injection Hempty as -> ->. cbn [is_err].
  simpl (len _ =? 0). cbv iota. step. rewrite trace_skip. cbn.
  split; [reflexivity|]. split; [reflexivity|].
  repeat constructor.
Qed.

End Properties.

(** *** The properties at work in the reference environment *)

Lemma dinner_empty_fridge_witness :
  let cs := calls refAnswer (dinner sampleConfig (command 1 "dinner" ""))
              (emptyWorld sampleAdvisor) in
  length cs = 2%nat ∧ omap poll_options cs = []
  ∧ Forall (λ c, is_advisor_call c = false) cs.
Proof.
  pose proof (dinner_empty_fridge refAnswer sampleConfig (command 1 "dinner" "")
                (emptyWorld sampleAdvisor) eq_refl) as [Hcs [Hpoll Hadv]].
  cbv zeta. split; [|split].
  - rewrite Hcs. reflexivity.
  - exact Hpoll.
  - exact Hadv.
Defined.

(** The scenario of the specification: tomato and pasta in the fridge, one
    unused suggestion; the Advisor is asked for three candidates. *)
Lemma dinner_ai_count_witness :
  omap requested_count
    (calls refAnswer (dinner sampleConfig (command 1 "dinner" ""))
       (sampleWorld sampleAdvisor)) = [3].
Proof.
  destruct (dinner_ai_count refAnswer sampleConfig (command 1 "dinner" "")
              (sampleWorld sampleAdvisor)
              [mkIngredient "Tomato" ""; mkIngredient "Pasta" ""]
              eq_refl ltac:(discriminate))
    as (count & Hreq & _ & _ & Hone).
  unfold calls. rewrite Hreq. f_equal. apply Hone. reflexivity.
Defined.

Lemma poll_options_nonempty_witness :
  ["Carbonara"] ≠ []
  ∧ length ["Carbonara"] =
      (length (unused_in (trace refAnswer (dinner sampleConfig (command 1 "dinner" ""))
                            (sampleWorld noAdvisor)))
       + length (candidates_in (trace refAnswer (dinner sampleConfig (command 1 "dinner" ""))
                                  (sampleWorld noAdvisor))))%nat.
Proof.
  apply (poll_options_nonempty refAnswer sampleConfig (command 1 "dinner" "")
           (sampleWorld noAdvisor) ["Carbonara"]).
  vm_compute. left.
Defined.

(** One unused suggestion and an Advisor that fails: the poll has a single
    option.  Eleven unused suggestions: the poll has thirteen. *)
Lemma poll_with_one_option :
  (∃ options,
      options ∈ omap poll_options
                  (calls refAnswer (dinner sampleConfig (command 1 "dinner" ""))
                     (sampleWorld noAdvisor))
      ∧ options ≠ [] ∧ ¬ (2 ≤ length options)%nat)
  ∧ (∃ options,
        options ∈ omap poll_options
                    (calls refAnswer (dinner sampleConfig (command 1 "dinner" ""))
                       (crowdedWorld sampleAdvisor))
        ∧ (10 < length options)%nat).
Proof.
  split.
  - exists ["Carbonara"]. split; [vm_compute; left|].
    split; [discriminate | cbn; lia].
  - eexists. split; [vm_compute; left|]. cbn. lia.
Qed.

(** The scenario of the specification: the poll offers the user's carbonara
    first, then the Advisor's three candidates. *)
Lemma poll_user_suggestions_first_witness :
  ["Carbonara"; "Pasta al pomodoro"; "Tomato soup"; "Pasta salad"]
  = ((sd_Name <$> unused_in (trace refAnswer (dinner sampleConfig (command 1 "dinner" ""))
                               (sampleWorld sampleAdvisor)))
       ++ ((λ s, get_string s "name")
             <$> candidates_in (trace refAnswer (dinner sampleConfig (command 1 "dinner" ""))
                                  (sampleWorld sampleAdvisor))))%list.
Proof.
  apply (poll_user_suggestions_first refAnswer sampleConfig (command 1 "dinner" "")
           (sampleWorld sampleAdvisor)).
  vm_compute. left.
Defined.

(** With the transport down the poll is not created, and the carbonara has
    been marked used all the same. *)
Lemma marks_before_poll_witness :
  let cs := calls refAnswer (dinner sampleConfig (command 1 "dinner" ""))
              (offlineWorld sampleAdvisor) in
  MarkAsUsed "s0" ∈ take 6 cs
  ∧ sd_Used <$> w_pool (final refAnswer (dinner sampleConfig (command 1 "dinner" ""))
                          (offlineWorld sampleAdvisor)) = [true].
Proof.
  cbv zeta. split; [|reflexivity].
  set (cs := calls refAnswer (dinner sampleConfig (command 1 "dinner" ""))
               (offlineWorld sampleAdvisor)).
  apply (marks_before_poll refAnswer sampleConfig (command 1 "dinner" "")
           (offlineWorld sampleAdvisor) (take 6 cs)
           (drop 7 cs)
           (ApiSend (SendPollConfig 1 "What should we cook tonight?"
                       ["Carbonara"; "Pasta al pomodoro"; "Tomato soup"; "Pasta salad"]
                       false))
           eq_refl (ex_intro _ _ eq_refl) carbonara).
  vm_compute. left.
Defined.

(** A text while adding ingredients with the store down: both names the
    Advisor finds are tried.  A photo while adding ingredients: milk and
    butter are upserted.  The photo command while the Advisor is down:
    nothing is upserted. *)
Lemma ingestion_failure_policy_witness :
  omap upserted
    (calls refAnswer
       (defaultHandler sampleConfig (mkUpdate (Some (textMessage 1 "eggs, flour")) None))
       (addingDownWorld sampleAdvisor))
  = [(1, "Eggs", ""); (1, "Flour", "")]
  ∧ omap upserted
      (calls refAnswer
         (defaultHandler sampleConfig (mkUpdate (Some (photoMessage 1)) None))
         (addingWorld sampleAdvisor))
    = [(1, "Milk", ""); (1, "Butter", "")]
  ∧ omap upserted
      (calls refAnswer (add_photo sampleConfig (photoCommand 1)) (emptyWorld noAdvisor))
    = [].
Proof.
  split; [|split].
  - destruct (ingestion_failure_policy refAnswer sampleConfig
                (addingDownWorld sampleAdvisor) (textMessage 1 "eggs, flour"))
      as [Htext _].
    destruct (Htext (mkUpdate (Some (textMessage 1 "eggs, flour")) None)
                eq_refl eq_refl eq_refl ltac:(discriminate) eq_refl)
      as [_ (names & err & Hreply & Hrest)].
    vm_compute in Hreply. injection Hreply as <- <-.
    exact Hrest.
  - destruct (ingestion_failure_policy refAnswer sampleConfig
                (addingWorld sampleAdvisor) (photoMessage 1))
      as (_ & Hphoto & _).
    destruct (Hphoto (mkUpdate (Some (photoMessage 1)) None) (mkPhotoSize "large")
                eq_refl eq_refl eq_refl (or_introl eq_refl))
      as [_ (file & ferr & Hfile & Hrest)].
    vm_compute in Hfile. injection Hfile as <- <-.
    destruct Hrest as [_ (names & err & Hreply & Hrest)].
    vm_compute in Hreply. injection Hreply as <- <-.
    exact Hrest.
  - destruct (ingestion_failure_policy refAnswer sampleConfig
                (emptyWorld noAdvisor) (photoCommand 1))
      as (_ & _ & Hcommand).
    destruct (Hcommand (mkPhotoSize "large") eq_refl)
      as [_ (file & ferr & Hfile & Hrest)].
    vm_compute in Hfile. injection Hfile as <- <-.
    destruct Hrest as [_ (names & err & Hreply & Hrest)].
    vm_compute in Hreply. injection Hreply as <- <-.
    exact (proj1 Hrest).
Defined.

(** The Advisor describes the dish without a name: it is kept under the
    user's own words.  The Advisor fails: the message the transport returned
    for the announcement, number 100, is the one edited, and nothing is
    handed to the pool. *)
Lemma suggest_persists_after_enrichment_witness :
  omap added_suggestion
    (calls refAnswer (suggest (command 1 "suggest" "Lasagna"))
       (sampleWorld namelessAdvisor))
  = [(1, "7", "alice", "Lasagna", "Italian", "Layers of pasta")]
  ∧ last (calls refAnswer (suggest (command 1 "suggest" "Lasagna"))
            (sampleWorld noAdvisor))
    = Some (ApiSend (NewEditMessageText 1 100 "😢 Sorry, I couldn't find information about 'Lasagna'. Please try again with a different dish.")).
Proof.
  split.
  - destruct (suggest_persists_after_enrichment refAnswer
                (command 1 "suggest" "Lasagna") (sampleWorld namelessAdvisor)
                ltac:(discriminate))
      as (pm & pmerr & dishInfo & err & _ & _ & Hreply & Hadded).
    vm_compute in Hreply. injection Hreply as <- <-.
    exact Hadded.
  - destruct (suggest_persists_after_enrichment refAnswer
                (command 1 "suggest" "Lasagna") (sampleWorld noAdvisor)
                ltac:(discriminate))
      as (pm & pmerr & dishInfo & err & Hsend & _ & Hreply & Hfailed).
    vm_compute in Hreply. injection Hreply as <- <-.
    apply (f_equal (λ first : option Event, first ≫= send_reply)) in Hsend.
    vm_compute in Hsend. injection Hsend as <- <-.
    destruct Hfailed as [_ Hcs]. unfold calls. rewrite Hcs. reflexivity.
Defined.

(** The Advisor fails: nothing is handed to the pool, and the pool is what it
    was. *)
Lemma suggest_enrichment_failure_persists_nothing :
  let message := command 1 "suggest" "Lasagna" in
  let w := sampleWorld noAdvisor in
  CommandArguments message ≠ ""
  ∧ omap dish_info_reply (trace refAnswer (suggest message) w)
    = [(∅, Some "advisor unavailable")]
  ∧ omap added_suggestion (calls refAnswer (suggest message) w) = []
  ∧ w_pool (final refAnswer (suggest message) w) = w_pool w.
Proof.
  cbv zeta. split; [discriminate|]. repeat split; reflexivity.
Qed.

(** A press of "Done adding ingredients" is acknowledged. *)
Lemma callback_acknowledged_when_registered_witness :
  omap acknowledged
    (calls refAnswer
       (handleUpdate "1" (commandHandlers sampleConfig) (map_to_list callbackHandlers)
          (Some (defaultHandler sampleConfig))
          (mkUpdate None (Some (press 1 "done_adding"))))
       (sampleWorld sampleAdvisor))
  = ["cb1"].
Proof.
  destruct (callback_acknowledged_when_registered refAnswer sampleConfig
              (sampleWorld sampleAdvisor) "1" (map_to_list callbackHandlers)
              (mkUpdate None (Some (press 1 "done_adding")))
              (press 1 "done_adding")
              (reflexivity _) eq_refl eq_refl) as [Hack _].
  apply Hack. exists "done_adding". split; [|reflexivity].
  apply elem_of_dom. exists done_adding. reflexivity.
Defined.

(** A press whose data no registered tag is a prefix of: nothing is sent,
    no acknowledgement either. *)
Lemma unmatched_press_not_acknowledged :
  let update := mkUpdate None (Some (press 1 "vote:1")) in
  let cs := calls refAnswer
              (handleUpdate "1" (commandHandlers sampleConfig)
                 (map_to_list callbackHandlers)
                 (Some (defaultHandler sampleConfig)) update)
              (sampleWorld sampleAdvisor) in
  range_order callbackHandlers (map_to_list callbackHandlers)
  ∧ (∀ tag, tag ∈ dom callbackHandlers → has_prefix "vote:1" tag = false)
  ∧ cs = [] ∧ omap acknowledged cs = [].
Proof.
  cbv zeta. split; [unfold range_order; reflexivity|]. split; [|split; reflexivity].
  intros tag Hdom. apply elem_of_dom in Hdom as [handler Hh].
  unfold callbackHandlers in Hh.
  rewrite !lookup_insert_Some, lookup_empty in Hh.
  destruct Hh as [[<- _] | [_ [[<- _] | [_ [[<- _] | [_ [[<- _] | [_ [[<- _] | [_ H]]]]]]]]]];
    try reflexivity.
  discriminate H.
Qed.

(** C10: which handler a press of "Done adding photos" reaches depends on
    the order in which the [range] over the callback table happens to visit
    it: both "done_adding" and "done_adding_photos" are prefixes of the
    data.  In one order the photo handler runs, in the reverse order the
    ingredient handler does, and the chat gets a different answer. *)
Theorem callback_dispatch_depends_on_range_order :
  let callback := press 1 "done_adding_photos" in
  let answers order :=
    omap ack_text
      (calls refAnswer (rangeCallbacks "1" order callback) (sampleWorld sampleAdvisor)) in
  ∃ order1 order2,
    range_order callbackHandlers order1
    ∧ range_order callbackHandlers order2
    ∧ answers order1
      = ["Thanks! Your fridge is now updated with ingredients from your photos."]
    ∧ answers order2 = ["Thanks! Your fridge is now updated."].
Proof.
  cbv zeta.
  exists (map_to_list callbackHandlers), (reverse (map_to_list callbackHandlers)).
  split; [unfold range_order; reflexivity|].
  split; [unfold range_order; apply reverse_Permutation|].
  split; reflexivity.
Qed.

(** *** Fridge reset in the reference environment *)

(** While the store works, the reset empties the chat's fridge, whatever it
    held, and the chat is then adding ingredients. *)
Lemma sync_fridge_reference (w : World) (message : Message) :
  w_store_down w = false →
  let w' := final refAnswer (sync_fridge message) w in
  w_fridge w' !! ChatID message = None
  ∧ w_modes w' !! ChatID message = Some StateAddingIngredients.
Proof.
  intros Hup. unfold final, sync_fridge. cbn. rewrite Hup. cbn.
  destruct (w_transport_down w); cbn;
    split; [apply lookup_delete_eq | apply lookup_insert_eq
           | apply lookup_delete_eq | apply lookup_insert_eq].
Qed.

(** While the store is down, the reset changes neither the fridge nor the
    mode. *)
Lemma sync_fridge_reference_down (w : World) (message : Message) :
  w_store_down w = true →
  let w' := final refAnswer (sync_fridge message) w in
  w_fridge w' = w_fridge w ∧ w_modes w' = w_modes w.
Proof.
  intros Hdown. unfold final, sync_fridge. cbn. rewrite Hdown. cbn.
  destruct (w_transport_down w); cbn; split; reflexivity.
Qed.

(** *** Scenarios of the specification *)

(** The photo command with a photo attached: milk and butter are upserted
    and the chat is left in the photo-adding mode, with the "done" prompt. *)
Example photo_command_scenario :
  let message := mkMessage 3 alice 1 "/add_photo" [mkPhotoSize "large"] true "add_photo" "" in
  let w' := final refAnswer (add_photo sampleConfig message) (emptyWorld sampleAdvisor) in
  w_fridge w' !! 1 = Some [mkIngredient "Milk" ""; mkIngredient "Butter" ""]
  ∧ w_modes w' !! 1 = Some StateAddingPhotos
  ∧ last (calls refAnswer (add_photo sampleConfig message) (emptyWorld sampleAdvisor))
    = Some (ApiSend (MessageConfig 1 "Send more photos of your fridge or pantry, and I'll extract ingredients from them. Press 'Done' when you're finished." (Some donePhotosKeyboard))).
Proof. cbv zeta. repeat split; reflexivity. Qed.

(** "Done adding ingredients" pressed while adding ingredients: the mode is
    cleared, the press acknowledged, the buttons stripped. *)
Example done_adding_scenario :
  let run := run refAnswer (done_adding (press 1 "done_adding")) (addingWorld sampleAdvisor) in
  w_modes run.1.2 !! 1 = None
  ∧ ev_call <$> run.2
    = [ClearState 1;
       ApiRequest (CallbackConfig "cb1" "Thanks! Your fridge is now updated.");
       ApiSend (EditMessageTextConfig 1 50 "✅ Fridge update complete! Use /fridge to see your ingredients or /dinner to get dinner suggestions." (Some []))].
Proof. cbv zeta. split; reflexivity. Qed.

(** The loop of the bot on a fridge reset followed by a text: the reset
    fridge holds what the Advisor parsed from the text. *)
Example reset_then_text_scenario :
  let updates :=
    [(mkUpdate (Some (command 1 "sync_fridge" "")) None, map_to_list callbackHandlers);
     (mkUpdate (Some (textMessage 1 "eggs, flour")) None, map_to_list callbackHandlers)] in
  let w' := final refAnswer (botLoop sampleConfig updates) (sampleWorld sampleAdvisor) in
  w_fridge w' !! 1 = Some [mkIngredient "Eggs" ""; mkIngredient "Flour" ""]
  ∧ w_modes w' !! 1 = Some StateAddingIngredients.
Proof. cbv zeta. split; reflexivity. Qed.

(** * Further properties *)

(** ** The prefix test of the dispatch loop *)

Lemma substring_prefix_length (prefix rest : string) :
  String.substring 0 (String.length prefix) (prefix +:+ rest) = prefix.
Proof.
  induction prefix as [|a prefix IH].
  - destruct rest; reflexivity.
  - change (String a (String.substring 0 (String.length prefix) (prefix +:+ rest))
            = String a prefix).
    f_equal. exact IH.
Qed.

Lemma substring_prefix_split (data : string) :
  ∀ n : nat, ∃ rest, data = String.substring 0 n data +:+ rest.
Proof.
  induction data as [|a data IH]; intros n.
  - exists "". destruct n; reflexivity.
  - destruct n as [|n].
    + exists (String a data). reflexivity.
    + destruct (IH n) as [rest Hrest]. exists rest.
      change (String a data = String a (String.substring 0 n data +:+ rest)).
      f_equal. exact Hrest.
Qed.

Lemma length_append (s1 s2 : string) :
  String.length (s1 +:+ s2) = (String.length s1 + String.length s2)%nat.
Proof.
  induction s1 as [|a s1 IH]; [reflexivity|].
  change (S (String.length (s1 +:+ s2)) = S (String.length s1 + String.length s2)).
  f_equal. exact IH.
Qed.

Lemma has_prefix_append (prefix rest : string) :
  has_prefix (prefix +:+ rest) prefix = true.
Proof.
  unfold has_prefix. rewrite andb_true_iff, Nat.leb_le, String.eqb_eq. split.
  - rewrite length_append. lia.
  - apply substring_prefix_length.
Qed.

Lemma append_empty (s : string) : s +:+ "" = s.
Proof.
  induction s as [|a s IH]; [reflexivity|].
  change (String a (s +:+ "") = String a s). f_equal. exact IH.
Qed.

(** A tag is a prefix of itself. *)
Lemma has_prefix_refl (data : string) : has_prefix data data = true.
Proof.
  rewrite <- (append_empty data) at 1. apply has_prefix_append.
Qed.

(** X1: the test [len(data) >= len(prefix) && data[:len(prefix)] == prefix]
    of the dispatch loop holds exactly when the data is the tag followed by
    something, possibly nothing. *)
Theorem has_prefix_spec (data prefix : string) :
  has_prefix data prefix = true ↔ ∃ rest, data = prefix +:+ rest.
Proof.
  unfold has_prefix. rewrite andb_true_iff, Nat.leb_le, String.eqb_eq. split.
  - intros [_ Hsub]. destruct (substring_prefix_split data (String.length prefix))
      as [rest Hrest]. exists rest. rewrite Hsub in Hrest. exact Hrest.
  - intros [rest ->].
    pose proof (has_prefix_append prefix rest) as H.
    unfold has_prefix in H. rewrite andb_true_iff, Nat.leb_le, String.eqb_eq in H.
    exact H.
Qed.

(** ** How many candidates the Advisor is asked for *)

(** X2: whatever the number of unused suggestions, the dinner handler asks
    the Advisor for at least two and at most four candidates. *)
Theorem aiSuggestionCount_bounds (userSuggestions : list SuggestedDish) :
  2 ≤ aiSuggestionCount userSuggestions ≤ 4.
Proof.
  unfold aiSuggestionCount. cbv zeta.
  destruct (0 <? len userSuggestions) eqn:Hpos; [|lia].
  apply Z.ltb_lt in Hpos.
  destruct (4 - len userSuggestions <? 2) eqn:Hlt; [lia|].
  apply Z.ltb_ge in Hlt. lia.
Qed.

(** ** The fridge listing *)

Lemma string_leb_trans (s1 s2 s3 : string) :
  String.leb s1 s2 = true → String.leb s2 s3 = true → String.leb s1 s3 = true.
Proof.
  unfold String.leb. revert s2 s3.
  induction s1 as [|a1 s1 IH]; intros [|a2 s2] [|a3 s3]; cbn; try congruence.
  unfold Ascii.compare.
  destruct (N.compare_spec (N_of_ascii a1) (N_of_ascii a2)) as [H12|H12|H12];
    destruct (N.compare_spec (N_of_ascii a2) (N_of_ascii a3)) as [H23|H23|H23];
    destruct (N.compare_spec (N_of_ascii a1) (N_of_ascii a3)) as [H13|H13|H13];
    try congruence; try lia.
  apply IH.
Qed.

#[local] Instance name_le_trans : Transitive name_le.
Proof. intros a b c. unfold name_le. apply string_leb_trans. Qed.

#[local] Instance name_le_total : Total name_le.
Proof. intros a b. unfold name_le. apply String.leb_total. Qed.

Lemma same_name_same_ingredient (l : list Ingredient) (a b : Ingredient) :
  NoDup (Name <$> l) → a ∈ l → b ∈ l → Name a = Name b → a = b.
Proof.
  induction l as [|x l IH]; intros Hnd Ha Hb Hname; [inversion Ha|].
  rewrite fmap_cons in Hnd. apply NoDup_cons in Hnd as [Hx Hnd].
  apply elem_of_cons in Ha as [-> | Ha]; apply elem_of_cons in Hb as [-> | Hb].
  - reflexivity.
  - exfalso. apply Hx. rewrite Hname. apply list_elem_of_fmap. eauto.
  - exfalso. apply Hx. rewrite <- Hname. apply list_elem_of_fmap. eauto.
  - exact (IH Hnd Ha Hb Hname).
Qed.

(** X3: the fridge listing does not depend on the order in which the store
    returns the ingredients, as long as no name occurs twice. *)
Theorem fridgeListing_order_independent (l1 l2 : list Ingredient) :
  NoDup (Name <$> l1) → l1 ≡ₚ l2 → fridgeListing l1 = fridgeListing l2.
Proof.
  intros Hnd Hperm. unfold fridgeListing. cbv zeta. f_equal.
  apply (Sorted_unique_strong name_le).
  - intros x1 x2 Hx1 Hx2 H12 H21.
    apply (same_name_same_ingredient l1); [exact Hnd | | |].
    + rewrite merge_sort_Permutation in Hx1. exact Hx1.
    + rewrite merge_sort_Permutation, <- Hperm in Hx2. exact Hx2.
    + apply String.leb_antisym; assumption.
  - apply Sorted_merge_sort. apply _.
  - apply Sorted_merge_sort. apply _.
  - rewrite !merge_sort_Permutation. exact Hperm.
Qed.

Lemma fridgeListing_order_independent_witness :
  fridgeListing [mkIngredient "Tomato" ""; mkIngredient "Pasta" "500g"]
  = fridgeListing [mkIngredient "Pasta" "500g"; mkIngredient "Tomato" ""].
Proof.
  apply fridgeListing_order_independent.
  - cbn. apply NoDup_cons. split; [|apply NoDup_singleton].
    intros H. apply list_elem_of_singleton in H. discriminate H.
  - apply Permutation_swap.
Defined.

(** ** What the handlers never do *)

Lemma all_calls_sound {A : Type} (P : Call → Prop) (p : Prog A) :
  all_calls P p →
  ∀ (W : Type) (answer : ∀ c : Call, W → reply c * W) (w : W),
    Forall P (calls answer p w).
Proof.
  induction p as [a | c k IH]; intros Hp W answer w.
  - constructor.
  - destruct Hp as [Hc Hk].
    change (calls answer (Do c k) w)
      with (c :: calls answer (k (answer c w).1) (answer c w).2).
    constructor; [exact Hc|]. apply IH. apply Hk.
Qed.

Lemma all_calls_bind {A B : Type} (P : Call → Prop) (p : Prog A) (f : A → Prog B) :
  all_calls P p → (∀ a, all_calls P (f a)) → all_calls P (p ≫= f).
Proof.
  intros Hp Hf. induction p as [a | c k IH].
  - apply Hf.
  - destruct Hp as [Hc Hk]. split; [exact Hc|]. intros r. apply IH. apply Hk.
Qed.

Lemma addUserSuggestions_all (P : Call → Prop) (us : list SuggestedDish) :
  (∀ id, P (MarkAsUsed id)) → (∀ text, P (LogError text)) →
  ∀ i acc, all_calls P (addUserSuggestions i us acc).
Proof.
  intros Hmark Hlog. induction us as [|s us IH]; intros i [[o d] m].
  - exact I.
  - cbn [addUserSuggestions]. split; [apply Hmark|]. intros [e|].
    + split; [apply Hlog|]. intros r. apply IH.
    + apply IH.
Qed.

Lemma addIngredients_all (P : Call → Prop) (chat : Z) (names : list string) :
  (∀ name, P (AddIngredient chat name "")) → (∀ text, P (LogError text)) →
  all_calls P (addIngredients chat names).
Proof.
  intros Hadd Hlog. induction names as [|name names IH].
  - exact I.
  - cbn [addIngredients]. split; [apply Hadd|]. intros [e|].
    + split; [apply Hlog|]. intros r. apply IH.
    + apply IH.
Qed.

(** Walks a handler: at a call, the obligation for the call is handed to
    [tac]; at a branch, every side is walked. *)
Ltac walk tac :=
  repeat
    lazymatch goal with
    | |- all_calls _ (Ret _) => exact I
    | |- all_calls _ (mret _) => exact I
    | |- all_calls _ skip => exact I
    | |- all_calls ?P (@mbind Prog _ _ _ ?k (call ?c)) =>
        change (P c ∧ ∀ r, all_calls P (k r)); split; [tac | intros ?; cbv beta]
    | |- all_calls ?P (@mbind Prog _ _ _ ?g (@mbind Prog _ _ _ ?f (call ?c))) =>
        change (P c ∧ ∀ r, all_calls P (mbind g (f r)));
        split; [tac | intros ?; cbv beta]
    | |- all_calls ?P (@mbind Prog _ _ _ ?k (mret ?a)) =>
        change (all_calls P (k a)); cbv beta
    | |- all_calls ?P (@mbind Prog _ _ _ ?k skip) =>
        change (all_calls P (k tt)); cbv beta
    | |- all_calls ?P (@mbind Prog _ _ _ ?k (addUserSuggestions ?i ?us ?acc)) =>
        apply all_calls_bind;
        [apply addUserSuggestions_all; intros ?; tac | intros ?]
    | |- all_calls ?P (@mbind Prog _ _ _ ?k (addIngredients ?chat ?names)) =>
        apply all_calls_bind;
        [apply addIngredients_all; intros ?; tac | intros ?]
    | |- all_calls _ (@mbind Prog _ _ _ _ (match ?x with _ => _ end)) => destruct x
    | |- all_calls _ (match ?x with _ => _ end) => destruct x
    end.

Ltac open_handlers :=
  unfold show_fridge;
  unfold start, dinner, dinnerPoll, fridge, show_fridge, sync_fridge, add_photo,
    suggest, defaultHandler, ingestPhoto, GetFileURL, done_adding, add_more,
    show_fridge_callback, done_adding_photos, cancel_adding_photos,
    SendMessage, EditMessage, CreatePoll, Send, AnswerCallbackQuery, when;
  cbv zeta.

Ltac reduce_call :=
  cbv beta iota delta [only kind_of about_chat call_chat poll_is_public NewMessage
                         NewEditMessageText NewPoll set_IsAnonymous NewCallback
                         stripButtons].

Section Never.
Context {W : Type}.
Variable answer : ∀ c : Call, W → reply c * W.
Variable cfg : Config.

Lemma command_cases (name : string) (handler : CommandHandler) :
  commandHandlers cfg !! name = Some handler →
  (name = "start" ∧ handler = start)
  ∨ (name = "dinner" ∧ handler = dinner cfg)
  ∨ (name = "fridge" ∧ handler = fridge)
  ∨ (name = "sync_fridge" ∧ handler = sync_fridge)
  ∨ (name = "show_fridge" ∧ handler = show_fridge)
  ∨ (name = "add_photo" ∧ handler = add_photo cfg)
  ∨ (name = "suggest" ∧ handler = suggest).
Proof.
  unfold commandHandlers. intros H. apply elem_of_list_to_map_2 in H.
  repeat (apply elem_of_cons in H as [H | H];
          [injection H as -> ->; tauto|]).
  inversion H.
Qed.

Lemma callback_cases (tag : string) (handler : CallbackHandler) :
  callbackHandlers !! tag = Some handler →
  (tag = "done_adding" ∧ handler = done_adding)
  ∨ (tag = "add_more" ∧ handler = add_more)
  ∨ (tag = "show_fridge" ∧ handler = show_fridge_callback)
  ∨ (tag = "done_adding_photos" ∧ handler = done_adding_photos)
  ∨ (tag = "cancel_adding_photos" ∧ handler = cancel_adding_photos).
Proof.
  unfold callbackHandlers. rewrite !lookup_insert_Some, lookup_empty.
  intros [[<- <-] | [_ [[<- <-] | [_ [[<- <-] | [_ [[<- <-] | [_ [[<- <-] | [_ H]]]]]]]]]];
    [tauto | tauto | tauto | tauto | tauto | discriminate H].
Qed.

(** X4: what each command can change.  The dinner command marks suggestions,
    sends polls and records votes; the suggest command adds a suggestion; the
    fridge reset clears the fridge and sets the mode; the photo command sets
    the mode and upserts ingredients; the start and the two listing commands
    change nothing. *)
Theorem command_effects (name : string) (handler : CommandHandler)
    (message : Message) (w : W) :
  commandHandlers cfg !! name = Some handler →
  Forall (only (command_kinds name)) (calls answer (handler message) w).
Proof.
  intros Hh. apply all_calls_sound.
  destruct (command_cases name handler Hh)
    as [[-> ->] | [[-> ->] | [[-> ->] | [[-> ->] | [[-> ->] | [[-> ->] | [-> ->]]]]]]];
    open_handlers; cbv zeta;
    walk ltac:(reduce_call; first [exact I | vm_compute; set_solver]).
Qed.

(** X5: what each button can change: the three "done" and "cancel"
    buttons can clear the mode, and nothing else; "add more" and "show
    fridge" change nothing. *)
Theorem callback_effects (tag : string) (handler : CallbackHandler)
    (callback : CallbackQuery) (w : W) :
  callbackHandlers !! tag = Some handler →
  Forall (only (callback_kinds tag)) (calls answer (handler callback) w).
Proof.
  intros Hh. apply all_calls_sound.
  destruct (callback_cases tag handler Hh)
    as [[-> ->] | [[-> ->] | [[-> ->] | [[-> ->] | [-> ->]]]]];
    open_handlers; cbv zeta;
    walk ltac:(reduce_call; first [exact I | vm_compute; set_solver]).
Qed.

(** X6: the default handler can upsert ingredients and clear the mode; it
    never sets a mode, resets the fridge, touches the suggestions, creates a
    poll or records a vote. *)
Theorem default_handler_effects (update : Update) (w : W) :
  Forall (only [KUpsert; KClearMode]) (calls answer (defaultHandler cfg update) w).
Proof.
  apply all_calls_sound. open_handlers. cbv zeta.
  walk ltac:(reduce_call; first [exact I | vm_compute; set_solver]).
Qed.

(** X7: a handler only talks about the chat its event came from: every call
    it makes that names a chat (messages, edits, polls, the fridge, the
    suggestion pool, the vote ledger, the mode) names that chat. *)
Theorem handlers_stay_in_chat (w : W) :
  (∀ name handler message,
     commandHandlers cfg !! name = Some handler →
     Forall (about_chat (ChatID message)) (calls answer (handler message) w))
  ∧ (∀ tag handler callback,
       callbackHandlers !! tag = Some handler →
       Forall (about_chat (ChatID (cb_Message callback)))
         (calls answer (handler callback) w))
  ∧ (∀ update message,
       upd_Message update = Some message →
       Forall (about_chat (ChatID message)) (calls answer (defaultHandler cfg update) w)).
Proof.
  split; [|split].
  - intros name handler message Hh. apply all_calls_sound.
    destruct (command_cases name handler Hh)
      as [[-> ->] | [[-> ->] | [[-> ->] | [[-> ->] | [[-> ->] | [[-> ->] | [-> ->]]]]]]];
      open_handlers; cbv zeta;
      walk ltac:(reduce_call; first [exact I | reflexivity]).
  - intros tag handler callback Hh. apply all_calls_sound.
    destruct (callback_cases tag handler Hh)
      as [[-> ->] | [[-> ->] | [[-> ->] | [[-> ->] | [-> ->]]]]];
      open_handlers; cbv zeta;
      walk ltac:(reduce_call; first [exact I | reflexivity]).
  - intros update message Hmsg. apply all_calls_sound.
    open_handlers. rewrite Hmsg. cbv zeta.
    walk ltac:(reduce_call; first [exact I | reflexivity]).
Qed.

(** X8: every poll the dinner command sends is a public one: the wrapper
    overrides the library's anonymous default. *)
Theorem dinner_polls_are_public (message : Message) (w : W) :
  Forall poll_is_public (calls answer (dinner cfg message) w).
Proof.
  apply all_calls_sound. open_handlers. cbv zeta.
  walk ltac:(reduce_call; first [exact I | reflexivity]).
Qed.

End Never.

(** ** Following a run call by call *)

Ltac exec_keep :=
  lazymatch goal with
  | |- context [trace ?ans (@mbind Prog _ _ _ ?k (call ?c)) ?w] =>
      change (trace ans (mbind k (call c)) w)
        with (existT c (ans c w).1 :: trace ans (k (ans c w).1) (ans c w).2);
      cbv beta
  | |- context [trace ?ans (@mbind Prog _ _ _ ?g (@mbind Prog _ _ _ ?f (call ?c))) ?w] =>
      change (trace ans (mbind g (mbind f (call c))) w)
        with (existT c (ans c w).1 :: trace ans (mbind g (f (ans c w).1)) (ans c w).2);
      cbv beta
  end.

Tactic Notation "exec" "as" simple_intropattern(pat) :=
  lazymatch goal with
  | |- context [trace ?ans (@mbind Prog _ _ _ ?k (call ?c)) ?w] =>
      exec_keep;
      let w' := fresh "w" in
      destruct (ans c w) as [pat w']; cbn [fst snd] in *
  | |- context [trace ?ans (@mbind Prog _ _ _ ?g (@mbind Prog _ _ _ ?f (call ?c))) ?w] =>
      exec_keep;
      let w' := fresh "w" in
      destruct (ans c w) as [pat w']; cbn [fst snd] in *
  end.

Ltac exec := exec as ?.

Ltac exec_skip :=
  lazymatch goal with
  | |- context [@mbind Prog _ _ _ ?k skip] =>
      change (mbind k skip) with (k tt); cbv beta
  end.

Ltac exec_ret :=
  lazymatch goal with
  | |- context [@mbind Prog _ _ _ ?k (mret ?a)] =>
      change (mbind k (mret a)) with (k a); cbv beta iota
  end.

Ltac exec_done :=
  lazymatch goal with
  | |- context [trace ?ans skip ?w] => change (trace ans skip w) with (@nil Event)
  end.

Section Dispatch.
Context {W : Type}.
Variable answer : ∀ c : Call, W → reply c * W.
Variable cfg : Config.

(** ** Dispatch *)

(** When the tags that are prefixes of the data all name one entry of the
    table, the loop runs that entry's handler, in whatever order it visits
    the table. *)
Lemma rangeCallbacks_single_match (logger : string)
    (order : list (string * CallbackHandler)) (callback : CallbackQuery)
    (tag : string) (handler : CallbackHandler) :
  (tag, handler) ∈ order →
  has_prefix (Data callback) tag = true →
  (∀ tag' handler', (tag', handler') ∈ order →
     has_prefix (Data callback) tag' = true → tag' = tag ∧ handler' = handler) →
  rangeCallbacks logger order callback
  = (call (LogInfo logger ("Handling callback: " +:+ Data callback
                             +:+ " from user " +:+ UserName (cb_From callback)));;
     handler callback).
Proof.
  intros Hin Hpre Honly.
  induction order as [|[t h] order IH]; [inversion Hin|].
  cbn [rangeCallbacks]. destruct (has_prefix (Data callback) t) eqn:Ht.
  - destruct (Honly t h ltac:(left) Ht) as [-> ->]. reflexivity.
  - apply IH.
    + apply elem_of_cons in Hin as [Heq | Hin]; [|exact Hin].
      injection Heq as -> ->. congruence.
    + intros t' h' Hin'. apply Honly. right. exact Hin'.
Qed.

(** X9: a press whose data is exactly one of the registered tags other than
    "done_adding_photos" reaches that tag's handler in every order in which
    the loop may visit the table: no other registered tag is a prefix of
    it. *)
Theorem exact_tag_dispatch (logger : string)
    (order : list (string * CallbackHandler)) (callback : CallbackQuery)
    (handler : CallbackHandler) :
  range_order callbackHandlers order →
  callbackHandlers !! Data callback = Some handler →
  Data callback ≠ "done_adding_photos" →
  rangeCallbacks logger order callback
  = (call (LogInfo logger ("Handling callback: " +:+ Data callback
                             +:+ " from user " +:+ UserName (cb_From callback)));;
     handler callback).
Proof.
  unfold range_order. intros Horder Hh Hne.
  apply (rangeCallbacks_single_match logger order callback (Data callback)).
  - rewrite Horder. apply elem_of_map_to_list. exact Hh.
  - apply has_prefix_refl.
  - intros tag' handler' Hin Hpre.
    rewrite Horder in Hin. apply elem_of_map_to_list in Hin.
    assert (tag' = Data callback) as ->.
    { destruct (callback_cases _ _ Hh)
        as [[Hd _] | [[Hd _] | [[Hd _] | [[Hd _] | [Hd _]]]]];
        rewrite Hd in Hpre, Hne |- *;
        destruct (callback_cases _ _ Hin)
          as [[-> _] | [[-> _] | [[-> _] | [[-> _] | [-> _]]]]];
        first [reflexivity | discriminate Hpre | congruence]. }
    split; [reflexivity | congruence].
Qed.

(** X10: an update that is neither a registered command nor a button press
    and carries no text or photo to ingest gets no reaction at all: this is
    so for an update without a message and for a command that has no
    handler, which the default handler skips. *)
Theorem unhandled_update_is_silent (logger : string)
    (order : list (string * CallbackHandler)) (update : Update) (w : W) :
  upd_CallbackQuery update = None →
  (upd_Message update = None
   ∨ ∃ message, upd_Message update = Some message
                ∧ IsCommand message = true
                ∧ commandHandlers cfg !! Command message = None) →
  calls answer (handleUpdate logger (commandHandlers cfg) order
                  (Some (defaultHandler cfg)) update) w = [].
Proof.
  intros Hcb Hmsg. unfold handleUpdate, commandOf, defaultHandler. rewrite Hcb.
  destruct Hmsg as [-> | (message & -> & Hcmd & Hnone)]; [reflexivity|].
  rewrite Hcmd, Hnone. cbn [mbind option_bind negb]. rewrite !andb_false_r.
  reflexivity.
Qed.

End Dispatch.

Section Ingestion.
Context {W : Type}.
Variable answer : ∀ c : Call, W → reply c * W.
Variable cfg : Config.

(** ** Texts and photos outside the ingestion flow *)

(** X11: a text that is no command, received while the chat is neither
    adding ingredients nor (on the second look) suggesting a dish, is added to
    the fridge as one ingredient, without asking the Advisor, when it has no
    space and fewer than 30 bytes; any other text is ignored after the two
    looks at the mode. *)
Theorem idle_word_is_added (update : Update) (message : Message) (w : W) :
  upd_Message update = Some message →
  Photo message = [] → IsCommand message = false → Text message ≠ "" →
  (answer (GetState (ChatID message)) w).1 ≠ StateAddingIngredients →
  (answer (GetState (ChatID message)) (answer (GetState (ChatID message)) w).2).1
    ≠ StateSuggestingDish →
  let cs := calls answer (defaultHandler cfg update) w in
  let word := negb (Contains (Text message) " ")
              && (Z.of_nat (String.length (Text message)) <? 30) in
  omap upserted cs = (if word then [(ChatID message, Text message, "")] else [])
  ∧ Forall (λ c, is_advisor_call c = false) cs
  ∧ (word = false → cs = [GetState (ChatID message); GetState (ChatID message)]).
Proof.
  intros Hmsg Hphoto Hcmd Htext H1 H2 cs word. subst cs word.
  unfold calls, defaultHandler. rewrite Hmsg, Hphoto, Hcmd. cbv zeta.
  apply String.eqb_neq in Htext. rewrite Htext.
  rewrite len_pos. cbn [andb negb].
  revert H1 H2. exec_keep.
  destruct (answer (GetState (ChatID message)) w) as [st1 w1]. cbn [fst snd].
  intros H1. rewrite (bool_decide_eq_false_2 _ H1). exec_keep.
  destruct (answer (GetState (ChatID message)) w1) as [st2 w2]. cbn [fst snd].
  intros H2. rewrite (bool_decide_eq_false_2 _ H2).
  destruct (negb (Contains (Text message) " ")
            && (Z.of_nat (String.length (Text message)) <? 30)).
  - unfold SendMessage. exec as [e|]; cbn [is_err]; repeat exec; exec_done;
      (split; [reflexivity|]); (split; [repeat constructor | discriminate]).
  - exec_done. split; [reflexivity|]. split; [repeat constructor | reflexivity].
Qed.

(** X12: a photo that comes without a command while the chat is in neither
    ingestion mode is not processed: the handler looks at the mode and points
    to the photo command, nothing else. *)
Theorem photo_outside_ingestion (update : Update) (message : Message) (w : W) :
  upd_Message update = Some message →
  Photo message ≠ [] → IsCommand message = false →
  (answer (GetState (ChatID message)) w).1 ≠ StateAddingIngredients →
  (answer (GetState (ChatID message)) w).1 ≠ StateAddingPhotos →
  calls answer (defaultHandler cfg update) w
  = [GetState (ChatID message);
     ApiSend (NewMessage (ChatID message) "I see you sent a photo! If you want me to extract ingredients from it, please use the /add_photo command.")].
Proof.
  intros Hmsg Hphoto Hcmd H1 H2.
  unfold calls, defaultHandler. rewrite Hmsg, Hcmd. cbv zeta.
  assert ((0 <? len (Photo message)) = true) as ->.
  { destruct (Photo message); [congruence | reflexivity]. }
  cbn [andb negb]. revert H1 H2. exec_keep.
  destruct (answer (GetState (ChatID message)) w) as [st w1]. cbn [fst snd].
  intros H1 H2.
  rewrite (bool_decide_eq_false_2 _ H1), (bool_decide_eq_false_2 _ H2).
  cbn [orb]. unfold SendMessage. exec. exec_done. reflexivity.
Qed.

(** ** The photo command *)

Lemma addIngredients_omap_none {B : Type} (f : Call → option B) (chat : Z)
    (names : list string) (w : W) :
  (∀ name, f (AddIngredient chat name "") = None) →
  (∀ text, f (LogError text) = None) →
  omap f (calls answer (addIngredients chat names) w) = [].
Proof.
  intros Hadd Hlog. apply omap_none_Forall. apply all_calls_sound.
  apply addIngredients_all; assumption.
Qed.

Lemma file_reply_none (t : list Event) :
  omap file_requested (ev_call <$> t) = [] → omap file_reply t = [].
Proof.
  induction t as [|[c r] t IH]; [reflexivity|].
  rewrite fmap_cons. cbn [omap list_omap ev_call projT1].
  destruct c; cbn [file_requested file_reply]; try exact IH.
  discriminate.
Qed.

(** X13: with photos attached, the photo command resolves the last photo of
    the message and no other.  When the transport cannot resolve it, the
    Advisor is not asked, nothing is upserted and the run ends with a message
    to the chat; when it can, the Advisor is asked about the file's link
    under the bot's token. *)
Theorem add_photo_resolves_last_photo (message : Message) (photo : PhotoSize) (w : W) :
  last (Photo message) = Some photo →
  let t := trace answer (add_photo cfg message) w in
  let cs := ev_call <$> t in
  omap file_requested cs = [FileID photo]
  ∧ ∀ file err,
      omap file_reply t = [(file, err)] →
      if is_err err
      then omap photo_url cs = [] ∧ omap upserted cs = []
           ∧ ∃ text, last cs = Some (ApiSend (NewMessage (ChatID message) text))
      else omap photo_url cs = [Link file (BotToken cfg)].
Proof.
  intros Hlast t cs. subst cs t. unfold add_photo. cbv zeta.
  assert ((0 <? len (Photo message)) = true) as ->.
  { destruct (Photo message); [discriminate Hlast | reflexivity]. }
  assert (largestPhoto (Photo message) = photo) as ->.
  { unfold largestPhoto. rewrite Hlast. reflexivity. }
  unfold ingestPhoto, GetFileURL, SendMessage, EditMessage, Send.
  exec. exec as [pm pmerr]. exec as [file [e|]]; cbn [is_err]; exec_ret; cbn [is_err].
  { exec. exec. exec_done. split; [reflexivity|].
    intros f e' Heq. injection Heq as <- <-. cbn [is_err].
    split; [reflexivity|]. split; [reflexivity|]. eexists. reflexivity. }
  exec as [names [e'|]]; cbn [is_err].
  { exec. exec. exec_done. split; [reflexivity|].
    intros f e0 Heq. injection Heq as <- <-. reflexivity. }
  rewrite len_eqb_0. destruct names as [|name names].
  { exec. exec_done. split; [reflexivity|].
    intros f e0 Heq. injection Heq as <- <-. reflexivity. }
  rewrite trace_bind.
  lazymatch goal with
  | |- context [trace answer (addIngredients ?chat ?l) ?wx] =>
      pose proof (addIngredients_omap_none file_requested chat l wx
                    ltac:(intros; reflexivity) ltac:(intros; reflexivity)) as Hfile;
      pose proof (addIngredients_omap_none photo_url chat l wx
                    ltac:(intros; reflexivity) ltac:(intros; reflexivity)) as Hurl;
      unfold calls in Hfile, Hurl;
      generalize dependent (trace answer (addIngredients chat l) wx);
      intros added Hfile Hurl;
      generalize (final answer (addIngredients chat l) wx); intros wa
  end.
  exec. exec. exec_done.
  pose proof (file_reply_none added Hfile) as Hreply.
  rewrite !fmap_cons, fmap_app, !fmap_cons.
  cbn [omap list_omap ev_call projT1 file_requested photo_url file_reply].
  rewrite !omap_app, Hfile, Hurl, Hreply.
  split; [reflexivity|].
  intros f e0 Heq. injection Heq as <- <-. reflexivity.
Qed.

(** X14: the photo command sets the chat's mode to photo-adding before
    anything else and writes the mode no second time, whatever happens to the
    photo; without a photo all it does besides is send the prompt with the
    cancel button. *)
Theorem add_photo_sets_mode_first (message : Message) (w : W) :
  ∃ rest,
    calls answer (add_photo cfg message) w
    = SetState (ChatID message) StateAddingPhotos :: rest
    ∧ omap mode_written rest = []
    ∧ (Photo message = [] →
       ∃ text, rest = [ApiSend (MessageConfig (ChatID message) text
                                  (Some [[mkButton "Cancel" "cancel_adding_photos"]]))]).
Proof.
  unfold calls, add_photo. cbv zeta. exec. rewrite fmap_cons.
  cbn [ev_call projT1]. eexists. split; [reflexivity|]. split.
  - apply omap_none_Forall.
    lazymatch goal with
    | |- Forall _ (ev_call <$> trace answer ?p ?wx) =>
        change (ev_call <$> trace answer p wx) with (calls answer p wx)
    end.
    apply all_calls_sound. open_handlers.
    walk ltac:(first [reflexivity | exact I]).
  - intros ->. rewrite len_pos. unfold Send. exec. exec_done.
    eexists. reflexivity.
Qed.

(** ** Texts while adding ingredients *)

(** X15: while the chat is adding ingredients and the Advisor finds names in
    a text, the handler tries to upsert each one and then confirms with the
    number of names the Advisor found and their list, whether or not the
    upserts succeeded, and sends the done-or-more prompt. *)
Theorem text_ingestion_confirms (update : Update) (message : Message)
    (names : list string) (w : W) :
  upd_Message update = Some message →
  Photo message = [] → IsCommand message = false → Text message ≠ "" →
  (answer (GetState (ChatID message)) w).1 = StateAddingIngredients →
  (answer (ParseIngredientsFromText (Text message))
     (answer (GetState (ChatID message)) w).2).1 = (names, None) →
  names ≠ [] →
  ∃ adds,
    calls answer (defaultHandler cfg update) w
    = ([GetState (ChatID message); ParseIngredientsFromText (Text message)]
         ++ adds
         ++ [ApiSend (NewMessage (ChatID message)
                        ("✅ Added " +:+ fmt_d (len names)
                           +:+ " ingredients to your fridge: " +:+ Join names ", "));
             ApiSend (MessageConfig (ChatID message)
                        "Would you like to add more ingredients or are you done?"
                        (Some doneOrMoreKeyboard))])%list
    ∧ omap upserted adds = (λ name, (ChatID message, name, "")) <$> names
    ∧ Forall (λ c, is_upsert_or_log c = true) adds.
Proof.
  intros Hmsg Hphoto Hcmd Htext Hstate Hparse Hnames.
  unfold calls, defaultHandler. rewrite Hmsg, Hphoto, Hcmd. cbv zeta.
  apply String.eqb_neq in Htext. rewrite Htext.
  rewrite len_pos. cbn [andb negb].
  revert Hstate Hparse. exec_keep.
  destruct (answer (GetState (ChatID message)) w) as [st w1]. cbn [fst snd].
  intros ->. rewrite bool_decide_eq_true_2 by reflexivity. exec_keep.
  destruct (answer (ParseIngredientsFromText (Text message)) w1) as [[names' err] w2].
  cbn [fst snd]. intros Hparse. injection Hparse as -> ->. cbn [is_err].
  rewrite len_eqb_0. destruct names as [|name names]; [congruence|].
  rewrite trace_bind.
  lazymatch goal with
  | |- context [trace answer (addIngredients ?chat ?l) ?wx] =>
      destruct (addIngredients_trace answer chat l wx) as [Hups _];
      pose proof (all_calls_sound (λ c, is_upsert_or_log c = true)
                    (addIngredients chat l)
                    (addIngredients_all (λ c, is_upsert_or_log c = true) chat l
                       ltac:(intros; reflexivity) ltac:(intros; reflexivity))
                    W answer wx) as Hkind;
      unfold calls in Hups, Hkind;
      generalize dependent (trace answer (addIngredients chat l) wx);
      intros added Hups Hkind;
      generalize (final answer (addIngredients chat l) wx); intros wa
  end.
  unfold SendMessage, Send. exec. exec. exec_done.
  exists (ev_call <$> added).
  rewrite !fmap_cons, fmap_app, !fmap_cons. cbn [ev_call projT1 app].
  split; [reflexivity|]. split; assumption.
Qed.

End Ingestion.

Section Flows.
Context {W : Type}.
Variable answer : ∀ c : Call, W → reply c * W.
Variable cfg : Config.

(** ** The suggest command without a dish name *)

(** X16: without a dish name the suggest command only explains how to use
    it: the Advisor is not asked and nothing is handed to the pool. *)
Theorem suggest_without_name (message : Message) (w : W) :
  CommandArguments message = "" →
  calls answer (suggest message) w
  = [ApiSend (NewMessage (ChatID message) "🍴 You can suggest a dish for dinner! Please use the command like this: /suggest Lasagna")].
Proof.
  intros Hargs. unfold calls, suggest. cbv zeta. rewrite Hargs.
  cbn [String.eqb negb]. unfold SendMessage. exec. exec_done. reflexivity.
Qed.

(** ** The dinner command's failure paths and bookkeeping *)

(** X17: when the fridge cannot be read, the dinner command logs the error,
    has the error message for the operation generated, sends the chat
    exactly the message that was generated, and stops: no mode, pool or
    Advisor call follows. *)
Theorem dinner_fridge_unavailable (message : Message) (w : W)
    (ings : list Ingredient) (e : string) :
  (answer (ListIngredients (ChatID message)) w).1 = (ings, Some e) →
  ∃ errorMsg sent,
    trace answer (dinner cfg message) w
    = [event (ListIngredients (ChatID message)) (ings, Some e);
       event (LogError ("Failed to list ingredients: " +:+ e)) tt;
       event (GenerateErrorMessage "retrieve fridge contents") errorMsg;
       event (ApiSend (NewMessage (ChatID message) errorMsg)) sent].
Proof.
  intros Hlist. unfold dinner, SendMessage. cbv zeta. revert Hlist. exec_keep.
  destruct (answer (ListIngredients (ChatID message)) w) as [[ings' err] w1].
  cbn [fst snd]. intros Hlist. injection Hlist as -> ->. cbn [is_err].
  exec as []. exec as errorMsg. exec as sent. exec_done.
  exists errorMsg, sent. reflexivity.
Qed.

Lemma poll_sent_none (t : list Event) :
  omap poll_options (ev_call <$> t) = [] → omap poll_sent t = [].
Proof.
  induction t as [|[c r] t IH]; [reflexivity|].
  rewrite fmap_cons. cbn [omap list_omap ev_call projT1].
  destruct c as [[] | | | | | | | | | | | | | | | | | | | |];
    cbn [poll_options poll_sent]; try exact IH; discriminate.
Qed.

Lemma addUserSuggestions_omap_none {B : Type} (f : Call → option B)
    (i : nat) (us : list SuggestedDish) (acc : Merge) (w : W) :
  (∀ id, f (MarkAsUsed id) = None) → (∀ text, f (LogError text) = None) →
  omap f (calls answer (addUserSuggestions i us acc) w) = [].
Proof.
  intros Hmark Hlog. apply omap_none_Forall. apply all_calls_sound.
  apply addUserSuggestions_all; assumption.
Qed.

Lemma dinnerPoll_votes (chat : Z) (pm : Message) (us : list SuggestedDish)
    (ai : list dict) (w : W) :
  omap vote_recorded (calls answer (dinnerPoll chat pm us ai) w)
  = omap (vote_for chat) (omap poll_sent (trace answer (dinnerPoll chat pm us ai) w)).
Proof.
  unfold calls, dinnerPoll, EditMessage, CreatePoll, SendMessage, when. cbv zeta.
  destruct ((len ai =? 0) && (len us =? 0)).
  { exec. exec_done. reflexivity. }
  rewrite trace_bind.
  lazymatch goal with
  | |- context [trace answer (addUserSuggestions ?i ?l ?acc) ?wx] =>
      pose proof (addUserSuggestions_omap_none vote_recorded i l acc wx
                    ltac:(intros; reflexivity) ltac:(intros; reflexivity)) as Hvote;
      pose proof (addUserSuggestions_omap_none poll_options i l acc wx
                    ltac:(intros; reflexivity) ltac:(intros; reflexivity)) as Hpoll;
      unfold calls in Hvote, Hpoll;
      destruct (addAISuggestions (length us) 0 ai
                  (result answer (addUserSuggestions i l acc) wx)) as [[o d] m];
      generalize dependent (trace answer (addUserSuggestions i l acc) wx);
      intros marks Hvote Hpoll;
      generalize (final answer (addUserSuggestions i l acc) wx); intros wa
  end.
  pose proof (poll_sent_none marks Hpoll) as Hsent.
  exec. cbn [NewPoll set_IsAnonymous]. exec as [pollMsg [e|]]; cbn [is_err].
  - do 3 exec. exec_done.
    rewrite fmap_app, !omap_app, Hvote, Hsent. reflexivity.
  - exec as [e|]; cbn [is_err]; [exec | exec_skip]; exec; exec_done;
      rewrite fmap_app, !omap_app, Hvote, Hsent; reflexivity.
Qed.

(** X18: the dinner command records a vote state exactly for the polls the
    transport accepted: for each poll send that returned no error, one
    [CreateVote] for the chat with the poll's options and the id of the
    message the transport returned (also as the poll id, in decimal); for a
    failed send, none. *)
Theorem dinner_vote_follows_poll (message : Message) (w : W) :
  let t := trace answer (dinner cfg message) w in
  omap vote_recorded (ev_call <$> t)
  = omap (vote_for (ChatID message)) (omap poll_sent t).
Proof.
  intros t. subst t. unfold dinner, SendMessage, EditMessage, when. cbv zeta.
  exec as [ings [e|]]; cbn [is_err].
  { do 3 exec. exec_done. reflexivity. }
  destruct (len ings =? 0).
  { exec. exec_done. reflexivity. }
  exec as [pm pmerr].
  exec as [us [e|]]; cbn [is_err]; [exec | exec_skip];
    (exec as [ai [e'|]]); cbn [is_err];
    try (exec; destruct (len _ =? 0); [exec; exec_done; reflexivity|]);
    rewrite !fmap_cons;
    cbn [omap list_omap ev_call projT1 vote_recorded poll_sent NewMessage];
    apply dinnerPoll_votes.
Qed.

(** X19: when the pool gives no unused suggestion and the Advisor gives no
    candidate, by failing or by returning none, the dinner command creates no
    poll and ends by editing its processing message, the one the transport
    returned when the command announced that it was thinking, into the
    apology for that case. *)
Theorem dinner_without_options (message : Message) (w : W)
    (r : list dict * error) :
  let t := trace answer (dinner cfg message) w in
  let cs := ev_call <$> t in
  let chat := ChatID message in
  head (omap dishes_reply t) = Some r →
  unused_in t = [] → or_empty r = [] →
  omap poll_options cs = []
  ∧ ∃ listing processingMsg sendErr rest,
      t = event (ListIngredients chat) listing
          :: event (ApiSend (NewMessage chat "🧐 Thinking about dinner options based on your ingredients... This might take a moment."))
               (processingMsg, sendErr)
          :: rest
      ∧ last (ev_call <$> rest)
        = Some (ApiSend (NewEditMessageText chat (MessageID processingMsg)
                 (if is_err r.2
                  then "😢 Sorry, I couldn't come up with dinner suggestions right now. Please try again later."
                  else "😢 I couldn't find any suitable dishes based on your fridge contents. Try adding more ingredients with /fridge or suggest your own dishes with /suggest."))).
Proof.
  intros t cs chat. subst cs t chat.
  unfold dinner, dinnerPoll, SendMessage, EditMessage, when. cbv zeta.
  exec as [ings [e|]]; cbn [is_err].
  { do 3 exec. exec_done. discriminate. }
  destruct (len ings =? 0).
  { exec. exec_done. discriminate. }
  exec as [pm pmerr].
  exec as [us [e|]]; cbn [is_err]; [exec | exec_skip];
    (exec as [ai [e'|]]); cbn [is_err];
    cbn [omap list_omap dishes_reply head unused_in unused_reply from_option
           or_empty is_err fst snd];
    intros Hr; injection Hr as <-; cbn [or_empty is_err fst snd];
    intros Hus Hai; subst;
    try exec; rewrite ?len_eqb_0; cbn [andb];
    exec; exec_done;
    (split; [reflexivity|]);
    exists (ings, None), pm, pmerr; eexists; (split; reflexivity).
Qed.

End Flows.

Section Buttons.
Context {W : Type}.
Variable answer : ∀ c : Call, W → reply c * W.

(** ** What the buttons do to the mode and to their message *)

(** X20: every registered button handler makes exactly one edit, of the
    message that carried the button, and the edit leaves it with an empty
    keyboard; "done adding", "done adding photos" and "cancel" write the
    mode exactly once, by clearing it for the chat, and "add more" and "show
    fridge" make no call that writes the mode. *)
Theorem callback_clears_and_strips (tag : string) (handler : CallbackHandler)
    (callback : CallbackQuery) (w : W) :
  callbackHandlers !! tag = Some handler →
  let chat := ChatID (cb_Message callback) in
  let cs := calls answer (handler callback) w in
  omap edited cs = [(chat, MessageID (cb_Message callback), Some [])]
  ∧ omap mode_call cs = (if clears_mode tag then [ClearState chat] else []).
Proof.
  intros Hh chat cs. subst chat cs. unfold calls.
  destruct (callback_cases tag handler Hh)
    as [[-> ->] | [[-> ->] | [[-> ->] | [[-> ->] | [-> ->]]]]];
    open_handlers.
  - do 3 exec. exec_done. split; reflexivity.
  - do 2 exec. exec_done. split; reflexivity.
  - do 2 exec. exec as [ings [e|]]; cbn [is_err].
    + do 2 exec. exec_done. split; reflexivity.
    + destruct (len ings =? 0); exec; exec_done; split; reflexivity.
  - do 3 exec. exec as [ings [e|]]; cbn [is_err].
    + exec. exec_done. split; reflexivity.
    + destruct (len ings =? 0); repeat exec; exec_done; split; reflexivity.
  - do 3 exec. exec_done. split; reflexivity.
Qed.

End Buttons.

(** ** The further properties at work in the reference environment *)

Lemma command_effects_witness :
  Forall (only [KAddSuggestion])
    (calls refAnswer (suggest (command 1 "suggest" "Lasagna")) (sampleWorld sampleAdvisor)).
Proof.
  exact (command_effects refAnswer sampleConfig "suggest" suggest
           (command 1 "suggest" "Lasagna") (sampleWorld sampleAdvisor) eq_refl).
Defined.

Lemma callback_effects_witness :
  Forall (only [KClearMode])
    (calls refAnswer (done_adding (press 1 "done_adding")) (addingWorld sampleAdvisor)).
Proof.
  exact (callback_effects refAnswer "done_adding" done_adding
           (press 1 "done_adding") (addingWorld sampleAdvisor) eq_refl).
Defined.

Lemma handlers_stay_in_chat_witness :
  Forall (about_chat 1)
    (calls refAnswer (dinner sampleConfig (command 1 "dinner" "")) (sampleWorld sampleAdvisor)).
Proof.
  destruct (handlers_stay_in_chat refAnswer sampleConfig (sampleWorld sampleAdvisor))
    as [Hcommands _].
  exact (Hcommands "dinner" (dinner sampleConfig) (command 1 "dinner" "") eq_refl).
Defined.

Lemma exact_tag_dispatch_witness :
  rangeCallbacks "1" (reverse (map_to_list callbackHandlers)) (press 1 "done_adding")
  = (call (LogInfo "1" "Handling callback: done_adding from user alice");;
     done_adding (press 1 "done_adding")).
Proof.
  apply (exact_tag_dispatch "1" (reverse (map_to_list callbackHandlers))
           (press 1 "done_adding") done_adding).
  - unfold range_order. apply reverse_Permutation.
  - reflexivity.
  - discriminate.
Defined.

(** A command nobody registered gets no reaction. *)
Lemma unhandled_update_is_silent_witness :
  calls refAnswer
    (handleUpdate "1" (commandHandlers sampleConfig) (map_to_list callbackHandlers)
       (Some (defaultHandler sampleConfig))
       (mkUpdate (Some (command 1 "stats" "")) None))
    (sampleWorld sampleAdvisor) = [].
Proof.
  apply unhandled_update_is_silent; [reflexivity|].
  right. exists (command 1 "stats" ""). repeat split; reflexivity.
Defined.

Lemma idle_word_is_added_witness :
  omap upserted
    (calls refAnswer (defaultHandler sampleConfig (mkUpdate (Some (textMessage 1 "Eggs")) None))
       (emptyWorld noAdvisor))
  = [(1, "Eggs", "")].
Proof.
  destruct (idle_word_is_added refAnswer sampleConfig
              (mkUpdate (Some (textMessage 1 "Eggs")) None) (textMessage 1 "Eggs")
              (emptyWorld noAdvisor) eq_refl eq_refl eq_refl
              ltac:(discriminate) ltac:(vm_compute; discriminate)
              ltac:(vm_compute; discriminate)) as [Hups _].
  exact Hups.
Defined.

Lemma photo_outside_ingestion_witness :
  length (calls refAnswer
            (defaultHandler sampleConfig (mkUpdate (Some (photoMessage 1)) None))
            (emptyWorld sampleAdvisor)) = 2%nat.
Proof.
  rewrite (photo_outside_ingestion refAnswer sampleConfig
             (mkUpdate (Some (photoMessage 1)) None) (photoMessage 1)
             (emptyWorld sampleAdvisor) eq_refl ltac:(discriminate) eq_refl
             ltac:(vm_compute; discriminate) ltac:(vm_compute; discriminate)).
  reflexivity.
Defined.

Lemma add_photo_resolves_last_photo_witness :
  omap file_requested
    (calls refAnswer
       (add_photo sampleConfig
          (mkMessage 3 alice 1 "/add_photo" [mkPhotoSize "small"; mkPhotoSize "large"]
             true "add_photo" ""))
       (emptyWorld sampleAdvisor))
  = ["large"].
Proof.
  destruct (add_photo_resolves_last_photo refAnswer sampleConfig
              (mkMessage 3 alice 1 "/add_photo" [mkPhotoSize "small"; mkPhotoSize "large"]
                 true "add_photo" "")
              (mkPhotoSize "large") (emptyWorld sampleAdvisor) eq_refl) as [Hfile _].
  exact Hfile.
Defined.

Lemma text_ingestion_confirms_witness :
  last (calls refAnswer
          (defaultHandler sampleConfig (mkUpdate (Some (textMessage 1 "eggs, flour")) None))
          (addingDownWorld sampleAdvisor))
  = Some (ApiSend (MessageConfig 1 "Would you like to add more ingredients or are you done?"
                     (Some doneOrMoreKeyboard))).
Proof.
  destruct (text_ingestion_confirms refAnswer sampleConfig
              (mkUpdate (Some (textMessage 1 "eggs, flour")) None)
              (textMessage 1 "eggs, flour") ["Eggs"; "Flour"]
              (addingDownWorld sampleAdvisor)
              eq_refl eq_refl eq_refl ltac:(discriminate) eq_refl eq_refl
              ltac:(discriminate)) as (adds & Hcs & _).
  rewrite Hcs. rewrite app_assoc, last_app. reflexivity.
Defined.

Lemma suggest_without_name_witness :
  length (calls refAnswer (suggest (command 1 "suggest" "")) (sampleWorld sampleAdvisor))
  = 1%nat.
Proof.
  rewrite (suggest_without_name refAnswer (command 1 "suggest" "")
             (sampleWorld sampleAdvisor) eq_refl).
  reflexivity.
Defined.

(** The store is down: the chat gets the message generated for the failed
    operation. *)
Lemma dinner_fridge_unavailable_witness :
  calls refAnswer (dinner sampleConfig (command 1 "dinner" "")) (downWorld sampleAdvisor)
  = [ListIngredients 1;
     LogError "Failed to list ingredients: store unavailable";
     GenerateErrorMessage "retrieve fridge contents";
     ApiSend (NewMessage 1 "Sorry, I could not retrieve fridge contents.")].
Proof.
  destruct (dinner_fridge_unavailable refAnswer sampleConfig (command 1 "dinner" "")
              (downWorld sampleAdvisor)
              [] "store unavailable" eq_refl) as (errorMsg & sent & Ht).
  pose proof (f_equal (omap generated_reply) Ht) as Hmsg.
  vm_compute in Hmsg. injection Hmsg as <-.
  unfold calls. rewrite Ht. reflexivity.
Defined.

(** A tomato in the fridge, nothing suggested, the Advisor down: no poll,
    and the message edited is number 100, the one returned for the
    announcement. *)
Lemma dinner_without_options_witness :
  omap poll_options
    (calls refAnswer (dinner sampleConfig (command 1 "dinner" ""))
       (tomatoWorld noAdvisor))
  = []
  ∧ last (calls refAnswer (dinner sampleConfig (command 1 "dinner" ""))
            (tomatoWorld noAdvisor))
    = Some (ApiSend (NewEditMessageText 1 100 "😢 Sorry, I couldn't come up with dinner suggestions right now. Please try again later.")).
Proof.
  destruct (dinner_without_options refAnswer sampleConfig (command 1 "dinner" "")
              (tomatoWorld noAdvisor)
              ([], Some "advisor unavailable")
              ltac:(vm_compute; reflexivity) ltac:(vm_compute; reflexivity)
              ltac:(reflexivity))
    as (Hpoll & listing & pm & pmerr & rest & Ht & Hlast).
  split; [exact Hpoll|].
  pose proof (f_equal (λ t, head (omap send_reply t)) Ht) as Hsend.
  vm_compute in Hsend. injection Hsend as <- <-.
  unfold calls. rewrite Ht, !fmap_cons.
  apply last_cons_Some, last_cons_Some. exact Hlast.
Defined.

Lemma callback_clears_and_strips_witness :
  omap mode_call
    (calls refAnswer (cancel_adding_photos (press 1 "cancel_adding_photos"))
       (addingWorld sampleAdvisor))
  = [ClearState 1].
Proof.
  destruct (callback_clears_and_strips refAnswer "cancel_adding_photos"
              cancel_adding_photos (press 1 "cancel_adding_photos")
              (addingWorld sampleAdvisor) eq_refl) as [_ Hmode].
  exact Hmode.
Defined.

Section Reserved.
Context {W : Type}.
Variable answer : ∀ c : Call, W → reply c * W.
Variable cfg : Config.

(** X21: a text received while the chat is in the reserved dish-suggesting
    mode is not taken as a dish name or as an ingredient: the handler clears
    the mode and points to the suggest command. *)
Theorem text_while_suggesting (update : Update) (message : Message) (w : W) :
  upd_Message update = Some message →
  Photo message = [] → IsCommand message = false → Text message ≠ "" →
  (answer (GetState (ChatID message)) w).1 ≠ StateAddingIngredients →
  (answer (GetState (ChatID message)) (answer (GetState (ChatID message)) w).2).1
    = StateSuggestingDish →
  calls answer (defaultHandler cfg update) w
  = [GetState (ChatID message); GetState (ChatID message);
     ClearState (ChatID message);
     ApiSend (NewMessage (ChatID message) "🍴 Please use the /suggest command followed by a dish name, like: /suggest Lasagna")].
Proof.
  intros Hmsg Hphoto Hcmd Htext H1 H2.
  unfold calls, defaultHandler. rewrite Hmsg, Hphoto, Hcmd. cbv zeta.
  apply String.eqb_neq in Htext. rewrite Htext.
  rewrite len_pos. cbn [andb negb].
  revert H1 H2. exec_keep.
  destruct (answer (GetState (ChatID message)) w) as [st1 w1]. cbn [fst snd].
  intros H1. rewrite (bool_decide_eq_false_2 _ H1). exec_keep.
  destruct (answer (GetState (ChatID message)) w1) as [st2 w2]. cbn [fst snd].
  intros ->. rewrite bool_decide_eq_true_2 by reflexivity.
  unfold SendMessage. exec. exec. exec_done. reflexivity.
Qed.

End Reserved.

Lemma text_while_suggesting_witness :
  w_modes (final refAnswer
             (defaultHandler sampleConfig (mkUpdate (Some (textMessage 1 "Lasagna")) None))
             (suggestingWorld sampleAdvisor)) !! 1 = None
  ∧ length (calls refAnswer
              (defaultHandler sampleConfig (mkUpdate (Some (textMessage 1 "Lasagna")) None))
              (suggestingWorld sampleAdvisor)) = 4%nat.
Proof.
  split; [reflexivity|].
  rewrite (text_while_suggesting refAnswer sampleConfig
             (mkUpdate (Some (textMessage 1 "Lasagna")) None) (textMessage 1 "Lasagna")
             (suggestingWorld sampleAdvisor) eq_refl eq_refl eq_refl
             ltac:(discriminate) ltac:(vm_compute; discriminate)
             ltac:(vm_compute; reflexivity)).
  reflexivity.
Defined.

(** "done_adding" is a prefix of the data of the "Done adding photos"
    button. *)
Lemma has_prefix_spec_witness :
  has_prefix "done_adding_photos" "done_adding" = true.
Proof.
  apply (proj2 (has_prefix_spec "done_adding_photos" "done_adding")).
  exists "_photos". reflexivity.
Defined.

(** The photo command without a photo: the mode is set, the prompt sent. *)
Lemma add_photo_sets_mode_first_witness :
  length (calls refAnswer (add_photo sampleConfig (command 1 "add_photo" ""))
            (emptyWorld sampleAdvisor)) = 2%nat.
Proof.
  destruct (add_photo_sets_mode_first refAnswer sampleConfig (command 1 "add_photo" "")
              (emptyWorld sampleAdvisor)) as (rest & Hcs & _ & Hnone).
  destruct (Hnone eq_refl) as [text ->].
  rewrite Hcs. reflexivity.
Defined.
